(** * pdfsplitter: the document-collection workflow of [frontend/src/App.tsx]

    A shallow embedding of the logic of the React component [App]: the
    page-selection validator [isValidSplit], the default selection
    [defaultSplitForPages], the row operations ([updateSplit], [deleteRow],
    [duplicateRow], [onDragEnd]), the readiness flag [canGenerate] and the
    upload workflow ([uploadPDF], [onDrop], [onPaste], [onFileChange]) and
    [generate].

    Conventions of the embedding.
    - A JavaScript string is the list of its UTF-16 code units ([jsstring]).
    - A JavaScript [number] that holds a page count, a page index or an HTTP
      status is an integer of [Z] that is a double ([is_double]); every
      integer below 2^53 is one.  [parseInt] rounds the value of a numeral to
      the nearest double ([to_double]) and the template literal [`${n}`]
      prints the shortest numeral that reads back as [n], in exponent form
      from 10^21 on ([Number_toString]).  [Infinity] is the integer 2^1024,
      which is above every double.
    - React state is an explicit record [AppState]; a handler is a
      computation in a small state-and-exception monad, and the answer of the
      network is an argument of the handler. *)

From Stdlib Require Import List ZArith NArith Bool Lia String Ascii.
From Stdlib Require Decimal DecimalPos.
Import ListNotations.

(** ** JavaScript strings *)

Module JS.

Definition code_unit := N.
Definition jsstring := list code_unit.

(** An ASCII literal of the source as a [jsstring]. *)
Definition lit (s : string) : jsstring :=
  map N_of_ascii (list_ascii_of_string s).

Definition comma : code_unit := 44%N.
Definition hyphen : code_unit := 45%N.

(** [\d] of a regular expression without the [u] flag: [0-9]. *)
Definition isDigit (c : code_unit) : bool :=
  ((48 <=? c) && (c <=? 57))%N.

(** WhiteSpace and LineTerminator of ECMAScript, the code units that
    [String.prototype.trim] strips. *)
Definition isWhiteSpace (c : code_unit) : bool :=
  (((9 <=? c) && (c <=? 13)) || (c =? 32) || (c =? 160) || (c =? 5760)
   || ((8192 <=? c) && (c <=? 8202)) || (c =? 8232) || (c =? 8233)
   || (c =? 8239) || (c =? 8287) || (c =? 12288) || (c =? 65279))%N.

Fixpoint trimStart (s : jsstring) : jsstring :=
  match s with
  | [] => []
  | c :: r => if isWhiteSpace c then trimStart r else s
  end.

Definition trimEnd (s : jsstring) : jsstring :=
  rev (trimStart (rev s)).

(** [s.trim()] *)
Definition trim (s : jsstring) : jsstring :=
  trimEnd (trimStart s).

(** [s.split(sep)] for a one-unit separator: the fields between the
    separators, always at least one field. *)
Fixpoint String_split (sep : code_unit) (s : jsstring) : list jsstring :=
  match s with
  | [] => [[]]
  | c :: r =>
      if (c =? sep)%N then [] :: String_split sep r
      else match String_split sep r with
           | f :: fs => (c :: f) :: fs
           | [] => [[c]]
           end
  end.

(** [Boolean(s)] for a string: the empty string is the only falsy one. *)
Definition truthy (s : jsstring) : bool :=
  match s with
  | [] => false
  | _ :: _ => true
  end.

(** The longest prefix of digits and what follows it: how a greedy [\d+]
    (or [\d*]) consumes its input. *)
Fixpoint span_digits (s : jsstring) : jsstring * jsstring :=
  match s with
  | [] => ([], [])
  | c :: r =>
      if isDigit c
      then let (d, t) := span_digits r in (c :: d, t)
      else ([], s)
  end.

(** ** JavaScript numbers that hold an integer *)

Definition max_safe : Z := 9007199254740992%Z.   (* 2^53 *)
Definition ten21 : Z := 1000000000000000000000%Z.   (* 10^21 *)
Definition infinity : Z := (2 ^ 1024)%Z.

(** A positive integer rounded to 53 significant bits, to the nearest, ties
    to the even significand. *)
Definition round53 (n : Z) : Z :=
  (if n <? max_safe then n
   else
     let e := Z.log2 n - 52 in
     let q := Z.shiftr n e in
     let r := n - Z.shiftl q e in
     let half := Z.shiftl 1 (e - 1) in
     let q' := if (half <? r) || ((r =? half) && Z.odd q) then q + 1 else q in
     Z.shiftl q' e)%Z.

(** The Number value of an integer: the nearest double, [infinity] from
    2^1024 - 2^970 on. *)
Definition to_double (n : Z) : Z :=
  match n with
  | Z0 => 0%Z
  | Zpos _ => Z.min (round53 n) infinity
  | Zneg p => (- Z.min (round53 (Zpos p)) infinity)%Z
  end.

(** An integer that a [number] can hold. *)
Definition is_double (n : Z) : Prop := to_double n = n.

Definition digit_value (c : code_unit) : Z := Z.of_N c - 48.

(** The integer a string of digits denotes in radix 10 (Horner's rule). *)
Definition decimal_value (s : jsstring) : Z :=
  fold_left (fun acc c => 10 * acc + digit_value c)%Z s 0%Z.

(** [parseInt(s, 10)] on a capture of [\d+]: the Number value of the integer
    the digits denote.  Signs, leading blanks and [NaN] do not arise for such
    an argument. *)
Definition parseInt10 (s : jsstring) : Z :=
  to_double (decimal_value s).

(** The code units of a decimal numeral. *)
Fixpoint uint_units (d : Decimal.uint) : jsstring :=
  match d with
  | Decimal.Nil => []
  | Decimal.D0 r => 48%N :: uint_units r
  | Decimal.D1 r => 49%N :: uint_units r
  | Decimal.D2 r => 50%N :: uint_units r
  | Decimal.D3 r => 51%N :: uint_units r
  | Decimal.D4 r => 52%N :: uint_units r
  | Decimal.D5 r => 53%N :: uint_units r
  | Decimal.D6 r => 54%N :: uint_units r
  | Decimal.D7 r => 55%N :: uint_units r
  | Decimal.D8 r => 56%N :: uint_units r
  | Decimal.D9 r => 57%N :: uint_units r
  end.

(** [a === b] on strings. *)
Fixpoint str_eqb (a b : jsstring) : bool :=
  match a, b with
  | [], [] => true
  | x :: a', y :: b' => (x =? y)%N && str_eqb a' b'
  | _, _ => false
  end.

(** [a || b] on strings: [a] unless it is falsy. *)
Definition or_else (a b : jsstring) : jsstring :=
  if truthy a then a else b.

(** The decimal numeral of an integer [n >= 0], without leading zeros. *)
Definition digits_of (n : Z) : jsstring :=
  match n with
  | Zpos p => uint_units (Pos.to_uint p)
  | _ => [48%N]
  end.

(** Number::toString picks, for a double [x], integers [s] and [e] with the
    fewest digits in [s] such that [s * 10^e] reads back as [x], and among
    those the [s] that is closest to [x] (the even one on a tie).
    [closest x e] is that [s] for the exponent [e], when there is one: one of
    the two multiples of [10^e] next to [x]. *)
Definition rounds_to (x s e : Z) : bool :=
  ((0 <? s) && (to_double (s * 10 ^ e) =? x))%Z.

Definition closest (x e : Z) : option Z :=
  let lo := (x / 10 ^ e)%Z in
  let hi := (lo + 1)%Z in
  match rounds_to x lo e, rounds_to x hi e with
  | true, true =>
      let below := (x - lo * 10 ^ e)%Z in
      let above := (hi * 10 ^ e - x)%Z in
      Some (if (below <? above)%Z then lo
            else if (above <? below)%Z then hi
            else if Z.even lo then lo else hi)
  | true, false => Some lo
  | false, true => Some hi
  | false, false => None
  end.

(** The exponents are tried from the largest down: the larger the exponent,
    the fewer the digits of [s].  With exponent 0, [s] is [x] itself. *)
Fixpoint shortest_from (x : Z) (e : nat) : Z * Z :=
  match e with
  | O => (x, 0%Z)
  | S e' =>
      match closest x (Z.of_nat e) with
      | Some s => (s, Z.of_nat e)
      | None => shortest_from x e'
      end
  end.

Definition shortest (x : Z) : Z * Z :=
  shortest_from x (List.length (digits_of x)).

(** Number::toString of a positive integer [x].  Below 2^53 every integer is
    a double and the shortest numeral that reads back as [x] is the numeral
    of [x]; below 10^21 the digits of [s] are followed by [e] zeros; from
    10^21 on the form is [d.ddde+n]. *)
Definition Number_toString_pos (x : Z) : jsstring :=
  if (infinity <=? x)%Z then lit "Infinity"
  else if (x <? max_safe)%Z then digits_of x
  else
    let (s, e) := shortest x in
    if (x <? ten21)%Z then digits_of s ++ repeat 48%N (Z.to_nat e)
    else
      let ds := digits_of s in
      firstn 1 ds
      ++ (if (1 <? List.length ds)%nat then 46%N :: skipn 1 ds else [])
      ++ lit "e+" ++ digits_of (Z.of_nat (List.length ds) + e - 1)%Z.

(** [String(n)] / [`${n}`] for a number that holds an integer. *)
Definition Number_toString (n : Z) : jsstring :=
  match n with
  | Z0 => [48%N]
  | Zpos _ => Number_toString_pos n
  | Zneg p => hyphen :: Number_toString_pos (Zpos p)
  end.

End JS.

Import JS.

(** ** Selection grammar *)

(** [p.match(/^(\d+)(-(\d+))?$/)]: [None] when the pattern does not match,
    otherwise the captures [m[1]] and [m[3]] ([m[3]] is [undefined], here
    [None], when the optional group took no part in the match). *)
Definition re_match (p : jsstring) : option (jsstring * option jsstring) :=
  let (d1, r1) := span_digits p in
  match d1 with
  | [] => None
  | _ :: _ =>
      match r1 with
      | [] => Some (d1, None)
      | c :: r2 =>
          if (c =? hyphen)%N
          then let (d2, r3) := span_digits r2 in
               match d2, r3 with
               | _ :: _, [] => Some (d1, Some d2)
               | _, _ => None
               end
          else None
      end
  end.

(** The body of the [for (const p of parts)] loop of [isValidSplit], with its
    early [return false]. *)
Fixpoint check_parts (parts : list jsstring) (max : Z) : bool :=
  match parts with
  | [] => true
  | p :: ps =>
      match re_match p with
      | None => false
      | Some (m1, m3) =>
          let a := parseInt10 m1 in
          let b := match m3 with
                   | Some s => parseInt10 s
                   | None => a
                   end in
          if ((a <? 1) || (b <? 1) || (a >? max) || (b >? max) || (a >? b))%Z
          then false
          else check_parts ps max
      end
  end.

(** [value.split(",").map((s) => s.trim()).filter(Boolean)] *)
Definition split_parts (value : jsstring) : list jsstring :=
  filter truthy (map trim (String_split comma value)).

Definition isValidSplit (value : jsstring) (max : Z) : bool :=
  if negb (truthy (trim value)) then false
  else check_parts (split_parts value) max.

Definition defaultSplitForPages (pages : Z) : jsstring :=
  lit "1-" ++ Number_toString pages.


(** ** Rows *)

(** [interface Row extends UploadedDocMeta]: the fields of both. *)
Record UploadedDocMeta := {
  meta_documentId : jsstring;
  meta_name : jsstring;
  meta_size : Z;
  meta_pages : Z
}.

Record Row := {
  documentId : jsstring;
  name : jsstring;
  size : Z;
  pages : Z;
  key : jsstring;
  split : jsstring
}.

(** [{ ...r, split }] and [{ ...original, key }] *)
Definition with_split (r : Row) (s : jsstring) : Row :=
  {| documentId := documentId r; name := name r; size := size r;
     pages := pages r; key := key r; split := s |}.

Definition with_key (r : Row) (k : jsstring) : Row :=
  {| documentId := documentId r; name := name r; size := size r;
     pages := pages r; key := k; split := split r |}.

(** [array.findIndex(f)]: the index of the first element that satisfies
    [f], [-1] when there is none. *)
Fixpoint findIndex_from {T : Type} (f : T -> bool) (l : list T) (i : Z) : Z :=
  match l with
  | [] => (-1)%Z
  | x :: r => if f x then i else findIndex_from f r (i + 1)%Z
  end.

Definition findIndex {T : Type} (f : T -> bool) (l : list T) : Z :=
  findIndex_from f l 0%Z.

(** [array.slice(0, n)] and [array.slice(n)] for [0 <= n]. *)
Definition slice_to {T : Type} (n : Z) (l : list T) : list T :=
  firstn (Z.to_nat n) l.

Definition slice_from {T : Type} (n : Z) (l : list T) : list T :=
  skipn (Z.to_nat n) l.

Definition updateSplit (k s : jsstring) (rows : list Row) : list Row :=
  map (fun r => if str_eqb (key r) k then with_split r s else r) rows.

Definition deleteRow (k : jsstring) (rows : list Row) : list Row :=
  filter (fun r => negb (str_eqb (key r) k)) rows.

(** [duplicateRow]; [uuid] is the value of [crypto.randomUUID()]. *)
Definition duplicateRow (uuid k : jsstring) (rows : list Row) : list Row :=
  let index := findIndex (fun r => str_eqb (key r) k) rows in
  if (index =? -1)%Z then rows
  else match nth_error rows (Z.to_nat index) with
       | None => rows
       | Some original =>
           let copy := with_key original uuid in
           slice_to (index + 1) rows ++ copy :: slice_from (index + 1) rows
       end.

Definition canGenerate (rows : list Row) : bool :=
  (0 <? Z.of_nat (List.length rows))%Z
  && forallb (fun r => isValidSplit (split r) (pages r)) rows.

(** ** Reordering *)

Fixpoint remove_at {T : Type} (i : nat) (l : list T) : list T :=
  match l, i with
  | [], _ => []
  | _ :: r, O => r
  | x :: r, S j => x :: remove_at j r
  end.

Fixpoint insert_at {T : Type} (i : nat) (x : T) (l : list T) : list T :=
  match i, l with
  | O, _ => x :: l
  | S j, y :: r => y :: insert_at j x r
  | S _, [] => [x]
  end.

(** Modelled from the spec: [arrayMove] is imported from the package
    [@dnd-kit/sortable] and its body is not among the sources.  The spec's
    [reorder(fromIndex, toIndex)] "moves the entry at fromIndex to toIndex,
    shifting intervening entries; both indices must be within bounds": the
    entry is taken out at [from] and put back at [to].  Outside the bounds the
    spec says nothing and the model leaves the array as it is. *)
Definition arrayMove {T : Type} (array : list T) (from to : Z) : list T :=
  let len := Z.of_nat (List.length array) in
  if ((0 <=? from) && (from <? len) && (0 <=? to) && (to <? len))%Z
  then match nth_error array (Z.to_nat from) with
       | Some x => insert_at (Z.to_nat to) x (remove_at (Z.to_nat from) array)
       | None => array
       end
  else array.

(** [onDragEnd]: [active] is [event.active.id], [over] is [event.over?.id]
    ([None] when the row is dropped outside every row).  The handler looks the
    two indices up in the rows of the current render and hands [setRows] an
    updater; the updater runs on the same rows, no other update being pending
    while a row is dragged. *)
Definition onDragEnd (active : jsstring) (over : option jsstring)
    (rows : list Row) : list Row :=
  match over with
  | None => rows
  | Some o =>
      if negb (str_eqb active o) then
        let oldIndex := findIndex (fun r => str_eqb (key r) active) rows in
        let newIndex := findIndex (fun r => str_eqb (key r) o) rows in
        arrayMove rows oldIndex newIndex
      else rows
  end.

(** ** Workflow state and handlers *)

(** The [useState] cells of [App]. *)
Record AppState := {
  rows : list Row;
  loading : bool;
  error : option jsstring;
  outputName : jsstring;
  uploading : bool
}.

(** A [File] (or [Blob]) as far as the handlers look at it. *)
Record File := {
  file_name : jsstring;
  file_type : jsstring
}.

(** A [DataTransferItem] of the clipboard. *)
Record ClipboardItem := {
  item_type : jsstring;
  getAsFile : option File
}.

(** Calls of [fetch], in the order they are made. *)
Inductive Request :=
| PostUpload (file : File)
| PostSplit (filename : jsstring) (documents : list (jsstring * jsstring)).

(** What [fetch] answers.  [res.ok] is the Fetch API's [200 <= status <= 299];
    [res_json] is the outcome of [res.json()], the message of the thrown
    error when the body does not parse. *)
Record Response := {
  res_status : Z;
  res_json : jsstring + UploadedDocMeta
}.

Definition res_ok (res : Response) : bool :=
  ((200 <=? res_status res) && (res_status res <=? 299))%Z.

Inductive FetchOutcome :=
| NetworkError (message : jsstring)
| Responded (res : Response).

(** A thrown [Error]: the handlers read its [message] only. *)
Record Thrown := Error { message : jsstring }.

(** The component's state together with the log of requests sent. *)
Record World := {
  app : AppState;
  sent : list Request
}.

(** A ten-page document as a row, for the examples. *)
Definition sample_row (k sel : string) : Row :=
  {| documentId := lit "doc-1"; name := lit "a.pdf"; size := 2048;
     pages := 10; key := lit k; split := lit sel |}.

(** The initial values of the [useState] cells, and no request sent yet. *)
Definition initial : World :=
  {| app := {| rows := []; loading := false; error := None;
               outputName := lit "merged.pdf"; uploading := false |};
     sent := [] |}.

Module Handler.

(** A handler runs on a world and either returns or throws. *)
Definition M (A : Type) : Type := World -> (Thrown + A) * World.

Definition ret {A : Type} (a : A) : M A := fun w => (inr a, w).

Definition bind {A B : Type} (m : M A) (k : A -> M B) : M B :=
  fun w =>
    match m w with
    | (inl e, w') => (inl e, w')
    | (inr a, w') => k a w'
    end.

Definition throw {A : Type} (e : Thrown) : M A := fun w => (inl e, w).

(** [try { m } catch (e) { h e }] *)
Definition try_catch {A : Type} (m : M A) (h : Thrown -> M A) : M A :=
  fun w =>
    match m w with
    | (inl e, w') => h e w'
    | (inr a, w') => (inr a, w')
    end.

(** [try { m } finally { f }] *)
Definition try_finally {A : Type} (m : M A) (f : M unit) : M A :=
  fun w =>
    match m w with
    | (r, w') =>
        match f w' with
        | (inl e, w'') => (inl e, w'')
        | (inr _, w'') => (r, w'')
        end
    end.

Definition modify (f : AppState -> AppState) : M unit :=
  fun w => (inr tt, {| app := f (app w); sent := sent w |}).

End Handler.

Import Handler.

Notation "x <- m ;; k" := (bind m (fun x => k))
  (at level 61, m at next level, right associativity).
Notation "m ;; k" := (bind m (fun _ => k))
  (at level 61, right associativity).

Definition setRows (f : list Row -> list Row) : M unit :=
  modify (fun s => {| rows := f (rows s); loading := loading s;
                      error := error s; outputName := outputName s;
                      uploading := uploading s |}).

Definition setLoading (b : bool) : M unit :=
  modify (fun s => {| rows := rows s; loading := b;
                      error := error s; outputName := outputName s;
                      uploading := uploading s |}).

Definition setError (e : option jsstring) : M unit :=
  modify (fun s => {| rows := rows s; loading := loading s;
                      error := e; outputName := outputName s;
                      uploading := uploading s |}).

Definition setUploading (b : bool) : M unit :=
  modify (fun s => {| rows := rows s; loading := loading s;
                      error := error s; outputName := outputName s;
                      uploading := b |}).

(** [await fetch(...)]: the request is logged, then the call throws on a
    network error and returns the response otherwise. *)
Definition fetch (req : Request) (net : FetchOutcome) : M Response :=
  fun w =>
    let w' := {| app := app w; sent := sent w ++ [req] |} in
    match net with
    | NetworkError msg => (inl (Error msg), w')
    | Responded res => (inr res, w')
    end.

(** [await res.json()] *)
Definition json (res : Response) : M UploadedDocMeta :=
  match res_json res with
  | inl msg => throw (Error msg)
  | inr meta => ret meta
  end.

Definition application_pdf : jsstring := lit "application/pdf".

(** [uploadPDF]; [net] is what the network answers to the one [fetch] and
    [uuid] the value of [crypto.randomUUID()]. *)
Definition uploadPDF (net : FetchOutcome) (uuid : jsstring) (file : File)
    : M unit :=
  setError None ;;
  setUploading true ;;
  try_finally
    (try_catch
       (res <- fetch (PostUpload {| file_name := file_name file;
                                    file_type := application_pdf |}) net ;;
        if negb (res_ok res)
        then throw (Error (lit "Upload failed ("
                             ++ Number_toString (res_status res) ++ lit ")"))
        else
          meta <- json res ;;
          let newRow := {| key := uuid;
                           documentId := meta_documentId meta;
                           name := file_name file;
                           size := meta_size meta;
                           pages := meta_pages meta;
                           split := defaultSplitForPages (meta_pages meta) |} in
          setRows (fun r => r ++ [newRow]))
       (fun e => setError (Some (or_else (message e) (lit "Upload failed")))))
    (setUploading false).

(** React sets [e.currentTarget] for the time it runs a handler and resets
    it to [null] once the handler has returned, which an [async] handler does
    at its first [await]. *)
Inductive DispatchPhase := Dispatching | Dispatched.

(** The [TypeError] of an assignment to a property of [null] (the message is
    the engine's; this is V8's). *)
Definition currentTarget_null_error : Thrown :=
  Error (lit "Cannot set properties of null (setting 'value')").

(** [e.currentTarget.value = ""].  The value of the input is no part of the
    state; what is left of the statement is that it throws when
    [e.currentTarget] is [null]. *)
Definition reset_input_value (phase : DispatchPhase) : M unit :=
  match phase with
  | Dispatching => ret tt
  | Dispatched => throw currentTarget_null_error
  end.

(** [onFileChange]; [files] is [e.target.files].  The statement after
    [await uploadPDF(f)] runs when the dispatch of the event is over. *)
Definition onFileChange (net : FetchOutcome) (uuid : jsstring)
    (files : list File) : M unit :=
  match hd_error files with
  | None => ret tt
  | Some f =>
      uploadPDF net uuid f ;;
      reset_input_value Dispatched
  end.

(** [onDrop]; [files] is [ev.dataTransfer.files]. *)
Definition onDrop (net : FetchOutcome) (uuid : jsstring)
    (files : list File) : M unit :=
  match hd_error files with
  | Some file =>
      if str_eqb (file_type file) application_pdf
      then uploadPDF net uuid file
      else ret tt
  | None => ret tt
  end.

(** [onPaste]; [items] is [ev.clipboardData.items]. *)
Definition onPaste (net : FetchOutcome) (uuid : jsstring)
    (items : list ClipboardItem) : M unit :=
  match find (fun i => str_eqb (item_type i) application_pdf) items with
  | Some item =>
      match getAsFile item with
      | Some file => uploadPDF net uuid file
      | None => ret tt
      end
  | None => ret tt
  end.

(** ** Generating the merged document *)

(** The body of a response read with [res.blob()], as its bytes. *)
Definition Blob := list N.

(** The download that [generate] starts: the anchor it creates points to an
    object URL of [download_blob] and carries [download] as its file name. *)
Record Download := {
  download_blob : Blob;
  download : jsstring
}.

(** The state cells as the handler sees them when it is called. *)
Definition get_state : M AppState := fun w => (inr (app w), w).

(** [await res.blob()]; [blob] is its outcome, the message of the thrown
    error when the body cannot be read. *)
Definition res_blob (blob : jsstring + Blob) : M Blob :=
  match blob with
  | inl msg => throw (Error msg)
  | inr b => ret b
  end.

(** [generate]; [net] is what the network answers to the one [fetch] and
    [blob] the outcome of [res.blob()].  The handler returns the download it
    starts, [None] when it starts none. *)
Definition generate (net : FetchOutcome) (blob : jsstring + Blob)
    : M (option Download) :=
  s <- get_state ;;
  if negb (canGenerate (rows s)) then ret None
  else
    (setLoading true ;;
     setError None ;;
     try_finally
       (try_catch
          (let filename := or_else (outputName s) (lit "merged.pdf") in
           let documents := map (fun r => (documentId r, split r)) (rows s) in
           res <- fetch (PostSplit filename documents) net ;;
           if negb (res_ok res)
           then throw (Error (lit "Split failed ("
                                ++ Number_toString (res_status res)
                                ++ lit ")"))
           else
             (b <- res_blob blob ;;
              ret (Some {| download_blob := b;
                           download := or_else (outputName s)
                                         (lit "merged.pdf") |})))
          (fun e =>
             setError (Some (or_else (message e) (lit "Split failed"))) ;;
             ret None))
       (setLoading false)).

(** The split request fails: [fetch] throws, the response is not a success,
    or [res.blob()] throws. *)
Definition generate_fails (net : FetchOutcome) (blob : jsstring + Blob)
    : Prop :=
  match net with
  | NetworkError _ => True
  | Responded res => res_ok res = false \/ exists msg, blob = inl msg
  end.

(** The request [uploadPDF] sends for a file: the name of the file, and
    [application/pdf] as the type whatever the type of the file. *)
Definition upload_request (file : File) : Request :=
  PostUpload {| file_name := file_name file; file_type := application_pdf |}.

(** The request [generate] sends for a state. *)
Definition split_request (s : AppState) : Request :=
  PostSplit (or_else (outputName s) (lit "merged.pdf"))
    (map (fun r => (documentId r, split r)) (rows s)).

(** A handler run on [w] sends no request or one upload request, and adds
    at most one row. *)
Definition at_most_one_upload (h : M unit) (w : World) : Prop :=
  (sent (snd (h w)) = sent w
   \/ exists file, sent (snd (h w)) = sent w ++ [upload_request file])
  /\ List.length (rows (app (snd (h w)))) <= S (List.length (rows (app w))).

(** A state with one valid row and an empty output name, for the
    examples. *)
Definition sample_world : World :=
  {| app := {| rows := [sample_row "k1" "1-10,5"]; loading := false;
               error := None; outputName := []; uploading := false |};
     sent := [] |}.

(** The characters a selection is written with. *)
Definition selection_unit (c : code_unit) : Prop :=
  isDigit c = true \/ c = hyphen \/ c = comma \/ isWhiteSpace c = true.

(** The selection of a row is valid for the page count of the row. *)
Definition row_valid (r : Row) : Prop :=
  isValidSplit (split r) (pages r) = true.

(** ** Vocabulary of the specification *)

Definition all_digits (s : jsstring) : Prop :=
  Forall (fun c => isDigit c = true) s.

Definition all_blank (s : jsstring) : Prop :=
  Forall (fun c => isWhiteSpace c = true) s.

(** [matches_term t d1 o]: the string [t] is in the language of
    [^\d+(-\d+)?$], with [d1] the first number and [o] the second one when
    there is one. *)
Inductive matches_term : jsstring -> jsstring -> option jsstring -> Prop :=
| term_page : forall d,
    d <> [] -> all_digits d -> matches_term d d None
| term_range : forall d1 d2,
    d1 <> [] -> all_digits d1 -> d2 <> [] -> all_digits d2 ->
    matches_term (d1 ++ hyphen :: d2) d1 (Some d2).

(** The numeric bounds [(a, b)] of a term, [b = a] for a bare number. *)
Definition term_bounds (d1 : jsstring) (o : option jsstring) : Z * Z :=
  let a := parseInt10 d1 in
  (a, match o with Some d2 => parseInt10 d2 | None => a end).

(** A term that matches the pattern and has [1 <= a <= b <= max]. *)
Definition term_ok (max : Z) (t : jsstring) : Prop :=
  exists d1 o, matches_term t d1 o
    /\ (1 <= fst (term_bounds d1 o)
        /\ fst (term_bounds d1 o) <= snd (term_bounds d1 o)
        /\ snd (term_bounds d1 o) <= max)%Z.

(** The right-hand side of the spec's characterisation of [validate], read
    word for word: every comma-separated trimmed term is a term in bounds. *)
Definition every_term_ok (e : jsstring) (max : Z) : Prop :=
  Forall (term_ok max) (map trim (String_split comma e)).

(** The same for the terms that are not empty after trimming. *)
Definition every_nonempty_term_ok (e : jsstring) (max : Z) : Prop :=
  forall t, In t (String_split comma e) -> trim t <> [] ->
            term_ok max (trim t).

Definition has_term (e : jsstring) : Prop :=
  exists t, In t (String_split comma e) /\ trim t <> [].

(** A string of commas and blanks only. *)
Definition separators_only (e : jsstring) : Prop :=
  Forall (fun c => c = comma \/ isWhiteSpace c = true) e.

(** [join] of [Array.prototype.join] with a comma. *)
Fixpoint join_comma (ts : list jsstring) : jsstring :=
  match ts with
  | [] => []
  | [t] => t
  | t :: r => t ++ comma :: join_comma r
  end.

(** Where the row that ends up at index [j] comes from. *)
Definition source_index (from to j : nat) : nat :=
  if j =? to then from
  else if (from <=? j) && (j <? to) then S j
  else if (to <? j) && (j <=? from) then pred j
  else j.

(** A term of an expression, with the blanks written around it. *)
Record padded := {
  before : jsstring;
  term : jsstring;
  after : jsstring
}.

Definition with_blanks (x : padded) : jsstring :=
  before x ++ term x ++ after x.

Definition padding_ok (x : padded) : Prop :=
  all_blank (before x) /\ all_blank (after x) /\ ~ In comma (term x).

(** A term whose numbers are written with zeros in front: [zeros_first]
    zeros before the digits [first] and, for a range, a number of zeros
    before the digits of its end. *)
Record zero_padded := {
  zeros_first : nat;
  first : jsstring;
  range_end : option (nat * jsstring)
}.

Definition with_zeros (t : zero_padded) : jsstring :=
  (repeat 48%N (zeros_first t) ++ first t)
  ++ match range_end t with
     | Some (k, d) => hyphen :: repeat 48%N k ++ d
     | None => []
     end.

Definition without_zeros (t : zero_padded) : jsstring :=
  first t
  ++ match range_end t with
     | Some (_, d) => hyphen :: d
     | None => []
     end.

Definition numerals_ok (t : zero_padded) : Prop :=
  all_digits (first t) /\ first t <> []
  /\ match range_end t with
     | Some (_, d) => all_digits d /\ d <> []
     | None => True
     end.

(** The upload fails: [fetch] throws, the response is not a success, or
    [res.json()] throws. *)
Definition upload_fails (net : FetchOutcome) : Prop :=
  match net with
  | NetworkError _ => True
  | Responded res => res_ok res = false \/ exists msg, res_json res = inl msg
  end.

(** * Lemmas *)

(** ** Strings *)

Lemma str_eqb_eq (a b : jsstring) : str_eqb a b = true <-> a = b.
Proof.
  revert b; induction a as [|x a IH]; intros [|y b]; simpl;
    try (split; [discriminate | congruence]); try tauto.
  rewrite andb_true_iff, N.eqb_eq, IH. split.
  - intros [-> ->]; reflexivity.
  - intros H; injection H; auto.
Qed.

Lemma str_eqb_refl (a : jsstring) : str_eqb a a = true.
Proof. apply str_eqb_eq; reflexivity. Qed.

Lemma str_eqb_neq (a b : jsstring) : str_eqb a b = false <-> a <> b.
Proof.
  rewrite <- (str_eqb_eq a b). destruct (str_eqb a b); intuition congruence.
Qed.

Lemma truthy_true (s : jsstring) : truthy s = true <-> s <> [].
Proof. destruct s; simpl; intuition congruence. Qed.

Lemma trimStart_nil (s : jsstring) : trimStart s = [] <-> all_blank s.
Proof.
  unfold all_blank. induction s as [|c s IH]; simpl.
  - split; auto.
  - destruct (isWhiteSpace c) eqn:E.
    + rewrite IH. split; intros H.
      * constructor; assumption.
      * inversion H; assumption.
    + split; [discriminate|]. intros H; inversion H; congruence.
Qed.

Lemma trimStart_head (s : jsstring) c r :
  trimStart s = c :: r -> isWhiteSpace c = false.
Proof.
  induction s as [|x s IH]; simpl; [discriminate|].
  destruct (isWhiteSpace x) eqn:E; auto.
  intros H; injection H as -> _; assumption.
Qed.

Lemma trimStart_fix (s : jsstring) : trimStart (trimStart s) = trimStart s.
Proof.
  destruct (trimStart s) as [|c r] eqn:E; [reflexivity|].
  simpl. rewrite (trimStart_head _ _ _ E). reflexivity.
Qed.

Lemma all_blank_rev (s : jsstring) : all_blank (rev s) <-> all_blank s.
Proof.
  unfold all_blank. rewrite !Forall_forall.
  split; intros H c Hc; apply H; [apply -> in_rev | apply <- in_rev]; exact Hc.
Qed.

Lemma trim_nil (s : jsstring) : trim s = [] <-> all_blank s.
Proof.
  unfold trim, trimEnd.
  rewrite <- (trimStart_nil s).
  split; intros H.
  - apply (f_equal (@rev _)) in H. rewrite rev_involutive in H. simpl in H.
    apply (proj1 (trimStart_nil _)) in H.
    apply (proj1 (all_blank_rev _)) in H.
    apply (proj2 (trimStart_nil _)) in H.
    rewrite trimStart_fix in H. exact H.
  - rewrite H. reflexivity.
Qed.

Lemma trimStart_blank_app (ws t : jsstring) :
  all_blank ws -> trimStart (ws ++ t) = trimStart t.
Proof.
  induction 1 as [|c ws Hc _ IH]; simpl; [reflexivity|].
  rewrite Hc. exact IH.
Qed.

Lemma trimStart_app (t u : jsstring) :
  ~ all_blank t -> trimStart (t ++ u) = trimStart t ++ u.
Proof.
  induction t as [|c t IH]; simpl; intros H.
  - exfalso; apply H; constructor.
  - destruct (isWhiteSpace c) eqn:E; [|reflexivity].
    apply IH. intros Hb. apply H. constructor; assumption.
Qed.

Lemma trimEnd_app_blank (t ws : jsstring) :
  all_blank ws -> trimEnd (t ++ ws) = trimEnd t.
Proof.
  intros H. unfold trimEnd. rewrite rev_app_distr.
  rewrite trimStart_blank_app; [reflexivity|].
  apply all_blank_rev; exact H.
Qed.

Lemma all_blank_app (a b : jsstring) :
  all_blank (a ++ b) <-> all_blank a /\ all_blank b.
Proof. unfold all_blank. apply Forall_app. Qed.

(** Blanks around a string do not survive [trim]. *)
Lemma trim_pad (ws1 t ws2 : jsstring) :
  all_blank ws1 -> all_blank ws2 -> trim (ws1 ++ t ++ ws2) = trim t.
Proof.
  intros H1 H2.
  destruct (Forall_dec (fun c => isWhiteSpace c = true)
              (fun c => bool_dec (isWhiteSpace c) true) t) as [Hb|Hn].
  - rewrite (proj2 (trim_nil t)) by exact Hb.
    apply trim_nil. apply all_blank_app; split; [assumption|].
    apply all_blank_app; split; assumption.
  - unfold trim. rewrite trimStart_blank_app by assumption.
    rewrite trimStart_app by exact Hn.
    apply trimEnd_app_blank; assumption.
Qed.

Lemma trimStart_id (s : jsstring) :
  Forall (fun c => isWhiteSpace c = false) s -> trimStart s = s.
Proof.
  intros H; destruct H as [|c s Hc _]; simpl; [reflexivity|].
  rewrite Hc; reflexivity.
Qed.

(** A string without blanks is its own [trim]. *)
Lemma trim_id (s : jsstring) :
  Forall (fun c => isWhiteSpace c = false) s -> trim s = s.
Proof.
  intros H. unfold trim, trimEnd. rewrite (trimStart_id _ H).
  rewrite trimStart_id.
  - apply rev_involutive.
  - apply Forall_rev; exact H.
Qed.

(** What [trim] returns neither starts nor ends with a blank, and it is the
    argument without a blank prefix and a blank suffix. *)
Lemma trimStart_decompose (s : jsstring) :
  exists ws, all_blank ws /\ s = ws ++ trimStart s.
Proof.
  induction s as [|c s [ws [Hb He]]]; simpl.
  - exists []. split; [constructor | reflexivity].
  - destruct (isWhiteSpace c) eqn:E.
    + exists (c :: ws). split; [constructor; assumption|].
      simpl. congruence.
    + exists []. split; [constructor | reflexivity].
Qed.

Lemma trim_decompose (s : jsstring) :
  exists ws1 ws2, all_blank ws1 /\ all_blank ws2 /\ s = ws1 ++ trim s ++ ws2.
Proof.
  destruct (trimStart_decompose s) as [ws1 [H1 E1]].
  destruct (trimStart_decompose (rev (trimStart s))) as [ws2 [H2 E2]].
  exists ws1, (rev ws2). split; [exact H1|]. split.
  - apply all_blank_rev; exact H2.
  - unfold trim, trimEnd. rewrite <- rev_app_distr, <- E2, rev_involutive.
    exact E1.
Qed.

Lemma trim_ends (s : jsstring) :
  (forall c r, trim s = c :: r -> isWhiteSpace c = false)
  /\ (forall c r, trim s = r ++ [c] -> isWhiteSpace c = false).
Proof.
  split; intros c r E.
  - unfold trim, trimEnd in E.
    destruct (trimStart s) as [|x t] eqn:Es; [discriminate|].
    pose proof (trimStart_head _ _ _ Es) as Hx.
    destruct (trimStart_decompose (rev (x :: t))) as [ws [Hb Hd]].
    apply (f_equal (@rev _)) in Hd.
    rewrite rev_involutive, rev_app_distr, E in Hd.
    simpl in Hd. injection Hd as -> _. exact Hx.
  - unfold trim, trimEnd in E.
    apply (f_equal (@rev _)) in E.
    rewrite rev_involutive, rev_app_distr in E. simpl in E.
    exact (trimStart_head _ _ _ E).
Qed.

(** ** [split] *)

Lemma String_split_not_nil sep (s : jsstring) : String_split sep s <> [].
Proof.
  induction s as [|c s IH]; simpl; [discriminate|].
  destruct (c =? sep)%N; [discriminate|].
  destruct (String_split sep s); [contradiction | discriminate].
Qed.

Lemma String_split_app sep (a b : jsstring) :
  String_split sep (a ++ sep :: b) = String_split sep a ++ String_split sep b.
Proof.
  induction a as [|c a IH]; simpl.
  - rewrite N.eqb_refl. reflexivity.
  - destruct (c =? sep)%N; [rewrite IH; reflexivity|].
    rewrite IH.
    pose proof (String_split_not_nil sep a) as Hn.
    destruct (String_split sep a); [contradiction | reflexivity].
Qed.

Lemma String_split_no_sep sep (s : jsstring) :
  ~ In sep s -> String_split sep s = [s].
Proof.
  induction s as [|c s IH]; simpl; intros H; [reflexivity|].
  destruct (N.eqb_spec c sep) as [->|Hne]; [exfalso; auto|].
  rewrite IH by tauto. reflexivity.
Qed.

Lemma String_split_fields sep (s t : jsstring) :
  In t (String_split sep s) -> forall c, In c t -> In c s /\ c <> sep.
Proof.
  revert t; induction s as [|x s IH]; simpl; intros t Ht c Hc.
  - destruct Ht as [<-|[]]. destruct Hc.
  - destruct (N.eqb_spec x sep) as [->|Hne].
    + destruct Ht as [<-|Ht]; [destruct Hc|].
      destruct (IH _ Ht _ Hc); auto.
    + pose proof (String_split_not_nil sep s) as Hn.
      destruct (String_split sep s) as [|f fs]; [contradiction|].
      destruct Ht as [<-|Ht].
      * destruct Hc as [<-|Hc]; [auto|].
        destruct (IH f (or_introl eq_refl) _ Hc); auto.
      * destruct (IH t (or_intror Ht) _ Hc); auto.
Qed.

Lemma join_comma_cons (t : jsstring) (l : list jsstring) :
  l <> [] -> join_comma (t :: l) = t ++ comma :: join_comma l.
Proof. destruct l; [contradiction | reflexivity]. Qed.

(** Joining the fields with the separator gives the string back. *)
Lemma join_String_split (s : jsstring) :
  join_comma (String_split comma s) = s.
Proof.
  induction s as [|c s IH]; [reflexivity|].
  cbn [String_split].
  pose proof (String_split_not_nil comma s) as Hn.
  destruct (N.eqb_spec c comma) as [->|Hne].
  - rewrite join_comma_cons by exact Hn. rewrite IH. reflexivity.
  - destruct (String_split comma s) as [|f fs]; [contradiction|].
    destruct fs as [|g gs].
    + simpl in *. congruence.
    + rewrite join_comma_cons in * by discriminate.
      rewrite <- IH. reflexivity.
Qed.

(** ** The pattern *)

Lemma span_digits_spec (s : jsstring) :
  s = fst (span_digits s) ++ snd (span_digits s)
  /\ all_digits (fst (span_digits s))
  /\ match snd (span_digits s) with
     | [] => True
     | c :: _ => isDigit c = false
     end.
Proof.
  induction s as [|c s (IH1 & IH2 & IH3)]; simpl.
  - repeat split; constructor.
  - destruct (isDigit c) eqn:E.
    + destruct (span_digits s) as [d t]; simpl in *.
      repeat split; [congruence | constructor; assumption | assumption].
    + simpl. repeat split; [constructor | assumption].
Qed.

Lemma span_digits_app (d r : jsstring) :
  all_digits d ->
  match r with [] => True | c :: _ => isDigit c = false end ->
  span_digits (d ++ r) = (d, r).
Proof.
  intros Hd Hr. induction Hd as [|c d Hc _ IH]; simpl.
  - destruct r as [|c r]; [reflexivity|]. simpl. rewrite Hr. reflexivity.
  - rewrite Hc, IH. reflexivity.
Qed.

Lemma re_match_sound (p d1 : jsstring) (o : option jsstring) :
  re_match p = Some (d1, o) -> matches_term p d1 o.
Proof.
  unfold re_match.
  destruct (span_digits_spec p) as (E & Hd & Hr).
  destruct (span_digits p) as [d r]; simpl in *.
  destruct d as [|x d]; [discriminate|].
  destruct r as [|c r2].
  - intros H; injection H as <- <-. subst p. rewrite app_nil_r.
    constructor; [discriminate | assumption].
  - destruct (N.eqb_spec c hyphen) as [->|_]; [|discriminate].
    destruct (span_digits_spec r2) as (E2 & Hd2 & _).
    destruct (span_digits r2) as [d2 r3]; simpl in *.
    destruct d2 as [|y d2]; [discriminate|].
    destruct r3; [|discriminate].
    intros H; injection H as <- <-. subst p r2. rewrite app_nil_r.
    apply (term_range (x :: d) (y :: d2));
      try discriminate; assumption.
Qed.

Lemma re_match_complete (p d1 : jsstring) (o : option jsstring) :
  matches_term p d1 o -> re_match p = Some (d1, o).
Proof.
  intros H; destruct H as [d Hn Hd | d1 d2 Hn1 Hd1 Hn2 Hd2]; unfold re_match.
  - rewrite <- (app_nil_r d) at 1.
    rewrite (span_digits_app d [] Hd I).
    destruct d; [contradiction | reflexivity].
  - rewrite (span_digits_app d1 (hyphen :: d2) Hd1 eq_refl).
    destruct d1; [contradiction|].
    rewrite N.eqb_refl.
    rewrite <- (app_nil_r d2) at 1.
    rewrite (span_digits_app d2 [] Hd2 I).
    destruct d2; [contradiction | reflexivity].
Qed.

Lemma re_match_iff (p d1 : jsstring) (o : option jsstring) :
  re_match p = Some (d1, o) <-> matches_term p d1 o.
Proof. split; [apply re_match_sound | apply re_match_complete]. Qed.

(** ** The validator *)

Lemma bounds_check (a b max : Z) :
  ((a <? 1) || (b <? 1) || (a >? max) || (b >? max) || (a >? b))%Z = false
  <-> (1 <= a /\ a <= b /\ b <= max)%Z.
Proof.
  rewrite !Z.gtb_ltb, !orb_false_iff, !Z.ltb_ge. lia.
Qed.

Lemma check_parts_true (ps : list jsstring) (max : Z) :
  check_parts ps max = true <-> Forall (term_ok max) ps.
Proof.
  induction ps as [|p ps IH]; simpl.
  - split; auto.
  - destruct (re_match p) as [[m1 m3]|] eqn:E.
    + pose proof (bounds_check (fst (term_bounds m1 m3))
                    (snd (term_bounds m1 m3)) max) as Hb.
      unfold term_bounds in Hb; simpl in Hb.
      destruct (_ || _)%bool.
      * split; [discriminate|]. intros H; inversion H as [|? ? Hp _]; subst.
        destruct Hp as (d1 & o & Hm & Hbd).
        apply re_match_complete in Hm. rewrite E in Hm.
        injection Hm as <- <-. apply Hb in Hbd. discriminate.
      * rewrite IH. split; intros H.
        -- constructor; [|exact H].
           exists m1, m3. split; [apply re_match_sound; exact E|].
           apply Hb; reflexivity.
        -- inversion H; assumption.
    + split; [discriminate|]. intros H; inversion H as [|? ? Hp _]; subst.
      destruct Hp as (d1 & o & Hm & _).
      apply re_match_complete in Hm. congruence.
Qed.

Lemma isValidSplit_true (e : jsstring) (max : Z) :
  isValidSplit e max = true
  <-> trim e <> [] /\ Forall (term_ok max) (split_parts e).
Proof.
  unfold isValidSplit. rewrite <- check_parts_true, <- truthy_true.
  destruct (truthy (trim e)); simpl; intuition congruence.
Qed.

Lemma split_parts_forall (e : jsstring) (max : Z) :
  Forall (term_ok max) (split_parts e) <-> every_nonempty_term_ok e max.
Proof.
  unfold split_parts, every_nonempty_term_ok.
  rewrite Forall_forall. split.
  - intros H t Ht Hn. apply H. apply filter_In. split.
    + apply in_map; exact Ht.
    + apply truthy_true; exact Hn.
  - intros H p Hp. apply filter_In in Hp. destruct Hp as [Hp Hn].
    apply in_map_iff in Hp. destruct Hp as (t & <- & Ht).
    apply H; [exact Ht | apply truthy_true; exact Hn].
Qed.

Lemma all_blank_field (e t : jsstring) :
  all_blank e -> In t (String_split comma e) -> all_blank t.
Proof.
  unfold all_blank. rewrite !Forall_forall. intros H Ht c Hc.
  apply H. exact (proj1 (String_split_fields comma e t Ht c Hc)).
Qed.

Lemma has_term_not_blank (e : jsstring) : has_term e -> trim e <> [].
Proof.
  intros (t & Ht & Hn) He. apply Hn. apply trim_nil.
  apply trim_nil in He. exact (all_blank_field _ _ He Ht).
Qed.

Lemma split_parts_nil (e : jsstring) : split_parts e = [] <-> ~ has_term e.
Proof.
  unfold split_parts, has_term. split.
  - intros H (t & Ht & Hn).
    assert (Hin : In (trim t) (filter truthy (map trim (String_split comma e)))).
    { apply filter_In. split; [apply in_map; exact Ht | apply truthy_true; exact Hn]. }
    rewrite H in Hin. exact Hin.
  - intros H.
    destruct (filter truthy (map trim (String_split comma e))) as [|p ps] eqn:E;
      [reflexivity|].
    exfalso. apply H.
    assert (Hin : In p (filter truthy (map trim (String_split comma e))))
      by (rewrite E; left; reflexivity).
    apply filter_In in Hin. destruct Hin as [Hp Hn].
    apply in_map_iff in Hp. destruct Hp as (t & <- & Ht).
    exists t. split; [exact Ht | apply truthy_true; exact Hn].
Qed.

Lemma split_parts_app (a b : jsstring) :
  split_parts (a ++ comma :: b) = split_parts a ++ split_parts b.
Proof.
  unfold split_parts. rewrite String_split_app, map_app, filter_app.
  reflexivity.
Qed.

Lemma comma_not_blank (e : jsstring) : In comma e -> trim e <> [].
Proof.
  intros Hin He. apply trim_nil in He.
  unfold all_blank in He. rewrite Forall_forall in He.
  specialize (He _ Hin). discriminate.
Qed.

(** Commas in front, at the end or doubled do not change the verdict on a
    valid expression. *)
Lemma stray_commas_tolerated (e : jsstring) (max : Z) :
  isValidSplit e max = true ->
  isValidSplit (comma :: e) max = true
  /\ isValidSplit (e ++ [comma]) max = true
  /\ forall a b, e = a ++ comma :: b ->
       isValidSplit (a ++ comma :: comma :: b) max = true.
Proof.
  intros H. apply isValidSplit_true in H. destruct H as [_ H].
  repeat split.
  - apply isValidSplit_true. split.
    + apply comma_not_blank. left; reflexivity.
    + change (comma :: e) with ([] ++ comma :: e).
      rewrite split_parts_app. exact H.
  - apply isValidSplit_true. split.
    + apply comma_not_blank. apply in_or_app. right; left; reflexivity.
    + rewrite split_parts_app, app_nil_r. exact H.
  - intros a b ->. apply isValidSplit_true. split.
    + apply comma_not_blank. apply in_or_app. right; left; reflexivity.
    + rewrite split_parts_app in H. rewrite split_parts_app.
      change (comma :: b) with ([] ++ comma :: b).
      rewrite split_parts_app. exact H.
Qed.

(** A string of commas and blanks with a comma in it has no term at all, and
    the loop of [isValidSplit] accepts it without looking at anything. *)
Lemma separators_only_accepted (e : jsstring) (max : Z) :
  separators_only e -> In comma e -> isValidSplit e max = true.
Proof.
  intros Hs Hc. apply isValidSplit_true. split.
  - apply comma_not_blank; exact Hc.
  - replace (split_parts e) with (@nil jsstring); [constructor|].
    symmetry. apply split_parts_nil. intros (t & Ht & Hn).
    apply Hn. apply trim_nil. unfold all_blank. apply Forall_forall.
    intros c Hin.
    destruct (String_split_fields comma e t Ht c Hin) as [Hce Hne].
    unfold separators_only in Hs. rewrite Forall_forall in Hs.
    destruct (Hs _ Hce) as [->|Hw]; [contradiction | exact Hw].
Qed.

(** ** Claims on the selection grammar *)

(** C1, as the spec words it, fails: in ["1,,2"] the middle term is empty and
    does not match the pattern, yet the validator accepts the expression. *)
Lemma every_term_ok_fails_on_stray_comma :
  ~ (isValidSplit (lit "1,,2") 5 = true <-> every_term_ok (lit "1,,2") 5).
Proof.
  intros [H _]. specialize (H eq_refl).
  unfold every_term_ok in H.
  assert (Hin : In (@nil code_unit)
                  (map trim (String_split comma (lit "1,,2"))))
    by (vm_compute; right; left; reflexivity).
  rewrite Forall_forall in H. destruct (H _ Hin) as (d1 & o & Hm & _).
  inversion Hm as [d Hn _ | a b Hn _ _ _ E].
  - subst. contradiction.
  - destruct a; discriminate.
Qed.

(** C1 (amended): for an expression that is blank or has at least one term
    that is not empty after trimming, [isValidSplit e max] is true if and only
    if there is such a term and every comma-separated term that is not empty
    after trimming matches [^\d+(-\d+)?$] with [1 <= a <= b <= max]. *)
Theorem isValidSplit_iff_nonempty_terms (e : jsstring) (max : Z) :
  trim e = [] \/ has_term e ->
  (isValidSplit e max = true <-> has_term e /\ every_nonempty_term_ok e max).
Proof.
  intros Hdom. rewrite isValidSplit_true, split_parts_forall.
  split.
  - intros [Hne Hall]. split; [|exact Hall].
    destruct Hdom as [Hb|Ht]; [contradiction | exact Ht].
  - intros [Ht Hall]. split; [apply has_term_not_blank; exact Ht | exact Hall].
Qed.

Lemma has_term_1_2 : has_term (lit "1,,2").
Proof.
  exists (lit "1"). split; [vm_compute; left; reflexivity | discriminate].
Defined.

Lemma isValidSplit_iff_nonempty_terms_witness :
  (trim (lit "1,,2") = [] \/ has_term (lit "1,,2"))
  /\ (isValidSplit (lit "1,,2") 5 = true
      <-> has_term (lit "1,,2") /\ every_nonempty_term_ok (lit "1,,2") 5).
Proof.
  assert (H : trim (lit "1,,2") = [] \/ has_term (lit "1,,2"))
    by (right; exact has_term_1_2).
  split; [exact H|].
  exact (isValidSplit_iff_nonempty_terms (lit "1,,2") 5 H).
Defined.

(** C2: the validator accepts the comma-only string [",,,"], which the spec
    requires to be invalid. *)
Theorem comma_only_is_accepted : isValidSplit (lit ",,,") 5 = true.
Proof. reflexivity. Qed.

(** ** Printing and parsing numbers *)

(** [decimal_value] is the positional value: one more digit at the end is
    ten times the value so far plus the digit. *)
Lemma decimal_value_snoc (d : jsstring) (c : code_unit) :
  decimal_value [] = 0%Z
  /\ decimal_value (d ++ [c]) = (10 * decimal_value d + digit_value c)%Z.
Proof.
  split; [reflexivity|]. unfold decimal_value. rewrite fold_left_app.
  reflexivity.
Qed.

Lemma parseInt10_acc_pos (d : Decimal.uint) (p : positive) :
  fold_left (fun acc c => 10 * acc + digit_value c)%Z (uint_units d) (Zpos p)
  = Zpos (Pos.of_uint_acc d p).
Proof.
  revert p; induction d; intros p; cbn [uint_units fold_left Pos.of_uint_acc];
    try reflexivity;
    match goal with
    | |- fold_left _ _ ?z = Zpos (Pos.of_uint_acc _ ?q) =>
        replace z with (Zpos q) by (unfold digit_value; simpl Z.of_N; lia)
    end; apply IHd.
Qed.

Lemma decimal_value_uint_units (d : Decimal.uint) :
  decimal_value (uint_units d) = Z.of_N (Pos.of_uint d).
Proof.
  unfold decimal_value.
  induction d; cbn [uint_units fold_left Pos.of_uint]; try reflexivity;
    try exact IHd; apply parseInt10_acc_pos.
Qed.

Lemma uint_units_digits (d : Decimal.uint) : all_digits (uint_units d).
Proof.
  induction d; cbn [uint_units]; constructor; try reflexivity; assumption.
Qed.

Lemma uint_units_nil (d : Decimal.uint) : uint_units d = [] -> d = Decimal.Nil.
Proof. destruct d; simpl; intros H; [reflexivity | discriminate ..]. Qed.

Lemma to_uint_no_leading_zero (p : positive) (d : Decimal.uint) :
  Pos.to_uint p <> Decimal.D0 d.
Proof.
  intros E.
  pose proof (DecimalPos.Unsigned.to_of (Pos.to_uint p)) as H.
  rewrite DecimalPos.Unsigned.of_to in H. simpl in H.
  assert (Hnz : Decimal.nzhead (Pos.to_uint p) <> Decimal.Nil).
  { intros Hn. unfold Decimal.unorm in H. rewrite Hn in H.
    exact (DecimalPos.Unsigned.to_uint_nonzero p H). }
  rewrite (DecimalFacts.unorm_nzhead _ Hnz) in H.
  rewrite E in H at 1.
  exact (DecimalFacts.nzhead_nonzero _ _ (eq_sym H)).
Qed.

(** The numeral of a positive integer: digits only, at least one, no leading
    zero, and it denotes the integer. *)
Lemma digits_of_spec (n : Z) :
  (0 < n)%Z ->
  all_digits (digits_of n) /\ digits_of n <> []
  /\ hd_error (digits_of n) <> Some 48%N
  /\ decimal_value (digits_of n) = n.
Proof.
  intros Hn. destruct n as [|p|p]; try lia. cbn [digits_of].
  repeat split.
  - apply uint_units_digits.
  - intros E. apply uint_units_nil in E.
    exact (DecimalPos.Unsigned.to_uint_nonnil p E).
  - destruct (Pos.to_uint p) eqn:E; cbn [uint_units hd_error];
      try discriminate.
    exfalso. exact (to_uint_no_leading_zero p _ E).
  - rewrite decimal_value_uint_units, DecimalPos.Unsigned.of_to. reflexivity.
Qed.

Lemma max_safe_lt_infinity : (max_safe < infinity)%Z.
Proof. reflexivity. Qed.

Lemma ten21_lt_infinity : (ten21 < infinity)%Z.
Proof. reflexivity. Qed.

(** Every integer below 2^53 is a double. *)
Lemma to_double_small (n : Z) :
  (0 <= n < max_safe)%Z -> to_double n = n.
Proof.
  intros [H0 H1]. destruct n as [|p|p]; [reflexivity | | lia].
  unfold to_double, round53.
  destruct (Z.ltb_spec (Zpos p) max_safe) as [_|H]; [|lia].
  apply Z.min_l. pose proof max_safe_lt_infinity. lia.
Qed.

Lemma is_double_small (n : Z) : (0 <= n < max_safe)%Z -> is_double n.
Proof. apply to_double_small. Qed.

Lemma decimal_value_zeros_after (d : jsstring) (k : nat) :
  decimal_value (d ++ repeat 48%N k) = (decimal_value d * 10 ^ Z.of_nat k)%Z.
Proof.
  unfold jsstring, code_unit in *. induction k as [|k IH].
  - rewrite app_nil_r. simpl. lia.
  - cbn [repeat]. rewrite repeat_cons, app_assoc.
    rewrite (proj2 (decimal_value_snoc _ _)), IH.
    rewrite Nat2Z.inj_succ, Z.pow_succ_r by lia.
    unfold digit_value. simpl Z.of_N. lia.
Qed.

Lemma decimal_value_leading_zeros (k : nat) (d : jsstring) :
  decimal_value (repeat 48%N k ++ d) = decimal_value d.
Proof.
  unfold decimal_value. induction k as [|k IH]; [reflexivity|]. exact IH.
Qed.

Lemma closest_rounds_to (x e s : Z) :
  closest x e = Some s -> rounds_to x s e = true.
Proof.
  unfold closest.
  destruct (rounds_to x (x / 10 ^ e) e) eqn:Hlo,
    (rounds_to x (x / 10 ^ e + 1) e) eqn:Hhi; intros H; try discriminate;
    injection H as <-; try assumption.
  destruct (_ <? _)%Z; [assumption|].
  destruct (_ <? _)%Z; [assumption|].
  destruct (Z.even _); assumption.
Qed.

(** What [shortest] picks reads back as the double it is picked for. *)
Lemma shortest_from_spec (x : Z) (e : nat) :
  is_double x -> (0 < x)%Z ->
  (0 < fst (shortest_from x e))%Z /\ (0 <= snd (shortest_from x e))%Z
  /\ to_double (fst (shortest_from x e) * 10 ^ snd (shortest_from x e)) = x.
Proof.
  intros Hd Hx. induction e as [|e IH]; cbn [shortest_from].
  - cbn [fst snd]. repeat split; [exact Hx | lia|].
    rewrite Z.pow_0_r, Z.mul_1_r. exact Hd.
  - destruct (closest x (Z.of_nat (S e))) as [s|] eqn:E; [|exact IH].
    apply closest_rounds_to in E. unfold rounds_to in E.
    apply andb_true_iff in E. destruct E as [Hs Hr].
    apply Z.ltb_lt in Hs. apply Z.eqb_eq in Hr.
    cbn [fst snd]. repeat split; [exact Hs | lia | exact Hr].
Qed.

(** Below 10^21 the numeral that [`${n}`] prints for a double [n >= 1] has
    digits only, at least one, no leading zero, and [parseInt] reads [n]
    back. *)
Lemma Number_toString_numeral (n : Z) :
  is_double n -> (1 <= n < ten21)%Z ->
  all_digits (Number_toString n)
  /\ Number_toString n <> []
  /\ hd_error (Number_toString n) <> Some 48%N
  /\ parseInt10 (Number_toString n) = n.
Proof.
  intros Hd [H1 H21]. destruct n as [|p|p]; try lia.
  cbn [Number_toString]. unfold Number_toString_pos.
  destruct (Z.leb_spec infinity (Zpos p)) as [Hinf|_];
    [pose proof ten21_lt_infinity; lia|].
  destruct (Z.ltb_spec (Zpos p) max_safe) as [Hsafe|Hbig].
  - destruct (digits_of_spec (Zpos p) ltac:(lia)) as (A & B & C & D).
    repeat split; try assumption.
    unfold parseInt10. rewrite D. exact Hd.
  - pose proof (shortest_from_spec (Zpos p)
                  (List.length (digits_of (Zpos p))) Hd ltac:(lia))
      as (Hs & He & Hr).
    fold (shortest (Zpos p)) in Hs, He, Hr.
    destruct (shortest (Zpos p)) as [s e]. cbn [fst snd] in Hs, He, Hr.
    destruct (Z.ltb_spec (Zpos p) ten21) as [_|H]; [|lia].
    destruct (digits_of_spec s Hs) as (A & B & C & D).
    repeat split.
    + apply Forall_app. split; [exact A|].
      apply Forall_forall. intros c Hc. apply repeat_spec in Hc. subst c.
      reflexivity.
    + destruct (digits_of s); [contradiction | discriminate].
    + destruct (digits_of s); [contradiction | exact C].
    + unfold parseInt10. rewrite decimal_value_zeros_after, D.
      rewrite Z2Nat.id by exact He. exact Hr.
Qed.

(** A numeral of digits, the exponent form (with its [e]) or [Infinity]
    (with its [I]): the forms Number::toString has for a positive integer. *)
Lemma Number_toString_pos_forms (x : Z) :
  (0 < x)%Z ->
  (all_digits (Number_toString_pos x) /\ Number_toString_pos x <> []
   /\ (x < ten21)%Z)
  \/ (In 101%N (Number_toString_pos x) /\ (ten21 <= x)%Z)
  \/ (In 73%N (Number_toString_pos x) /\ (ten21 <= x)%Z).
Proof.
  intros Hx. unfold Number_toString_pos.
  destruct (Z.leb_spec infinity x) as [Hinf|Hfin].
  - right; right. split; [left; reflexivity|].
    pose proof ten21_lt_infinity. lia.
  - destruct (Z.ltb_spec x max_safe) as [Hsafe|Hbig].
    + left. destruct (digits_of_spec x Hx) as (A & B & _ & _).
      repeat split; try assumption. unfold max_safe, ten21 in *. lia.
    + destruct (shortest x) as [s e].
      destruct (Z.ltb_spec x ten21) as [Hlt|Hge].
      * left. repeat split; [| |exact Hlt].
        -- apply Forall_app. split.
           ++ destruct s as [|q|q]; cbn [digits_of];
                try (repeat constructor). apply uint_units_digits.
           ++ apply Forall_forall. intros c Hc. apply repeat_spec in Hc.
              subst c. reflexivity.
        -- intros E. apply app_eq_nil in E. destruct E as [E _].
           destruct s as [|q|q]; cbn [digits_of] in E; try discriminate E.
           apply uint_units_nil in E.
           exact (DecimalPos.Unsigned.to_uint_nonnil q E).
      * right; left. split; [|exact Hge].
        apply in_or_app; right. apply in_or_app; right.
        apply in_or_app; left. left; reflexivity.
Qed.

Lemma digit_not_blank (c : code_unit) :
  isDigit c = true -> isWhiteSpace c = false.
Proof.
  unfold isDigit, isWhiteSpace. intros H.
  apply andb_true_iff in H. destruct H as [H1 H2].
  apply N.leb_le in H1, H2.
  repeat match goal with
         | |- (_ || _)%bool = false => apply orb_false_iff; split
         | |- (_ && _)%bool = false => apply andb_false_iff
         end;
    try (apply N.eqb_neq; lia);
    try (right; apply N.leb_gt; lia); try (left; apply N.leb_gt; lia).
Qed.

Lemma digit_not_comma (c : code_unit) : isDigit c = true -> c <> comma.
Proof. intros H ->. discriminate. Qed.

(** ** The default selection *)

(** C8, as the spec words it, fails: the template literal prints the page
    count 10^21 in exponent form, and the default selection ["1-1e+21"] is
    rejected for that page count. *)
Lemma defaultSplitForPages_invalid_at_1e21 :
  is_double ten21 /\ (1 <= ten21)%Z
  /\ defaultSplitForPages ten21 = lit "1-1e+21"
  /\ isValidSplit (defaultSplitForPages ten21) ten21 = false.
Proof.
  split; [vm_compute; reflexivity|]. split; [unfold ten21; lia|].
  split; vm_compute; reflexivity.
Qed.

(** C8 (amended): for every page count [pages] that a number can hold
    (every integer below 2^53 can) with [1 <= pages < 10^21], the default
    selection is ["1-"] followed by the decimal numeral that the template
    literal prints for [pages] (digits only, no leading zero, read back as
    [pages] by [parseInt]), the validator accepts it for [pages], and for one
    page it is ["1-1"]. *)
Theorem defaultSplitForPages_valid (pages : Z) :
  is_double pages -> (1 <= pages < ten21)%Z ->
  (exists ds, defaultSplitForPages pages = lit "1-" ++ ds
              /\ all_digits ds /\ hd_error ds <> Some 48%N
              /\ parseInt10 ds = pages)
  /\ isValidSplit (defaultSplitForPages pages) pages = true
  /\ defaultSplitForPages 1 = lit "1-1".
Proof.
  intros Hdbl Hp.
  destruct (Number_toString_numeral pages Hdbl Hp) as (Hd & Hne & Hz & Hv).
  split; [|split; [|reflexivity]].
  - exists (Number_toString pages). repeat split; assumption.
  - assert (Hnb : Forall (fun c => isWhiteSpace c = false)
                    (defaultSplitForPages pages)).
    { unfold defaultSplitForPages. apply Forall_app. split.
      - repeat constructor.
      - eapply Forall_impl; [|exact Hd]. apply digit_not_blank. }
    assert (Hnc : ~ In comma (defaultSplitForPages pages)).
    { unfold defaultSplitForPages. intros Hin. apply in_app_or in Hin.
      destruct Hin as [Hin|Hin].
      - simpl in Hin. unfold comma in Hin.
        destruct Hin as [H|[H|[]]]; discriminate.
      - unfold all_digits in Hd. rewrite Forall_forall in Hd.
        exact (digit_not_comma _ (Hd _ Hin) eq_refl). }
    apply isValidSplit_true. split.
    + rewrite (trim_id _ Hnb). unfold defaultSplitForPages. discriminate.
    + unfold split_parts. rewrite (String_split_no_sep _ _ Hnc).
      cbn [map]. rewrite (trim_id _ Hnb).
      unfold defaultSplitForPages at 1.
      cbn [lit list_ascii_of_string map app filter truthy].
      constructor; [|constructor].
      exists [49%N], (Some (Number_toString pages)). split.
      * apply (term_range [49%N] (Number_toString pages));
          [discriminate | repeat constructor | exact Hne | exact Hd].
      * unfold term_bounds. cbn [fst snd]. rewrite Hv.
        change (parseInt10 [49%N]) with 1%Z. lia.
Qed.

Lemma defaultSplitForPages_valid_witness :
  is_double 10 /\ (1 <= 10 < ten21)%Z
  /\ isValidSplit (defaultSplitForPages 10) 10 = true.
Proof.
  assert (Hd : is_double 10) by reflexivity.
  assert (H : (1 <= 10 < ten21)%Z) by (unfold ten21; lia).
  split; [exact Hd|]. split; [exact H|].
  exact (proj1 (proj2 (defaultSplitForPages_valid 10 Hd H))).
Defined.

(** ** Number formatting and blanks *)

Lemma parseInt10_leading_zeros (k : nat) (d : jsstring) :
  parseInt10 (repeat 48%N k ++ d) = parseInt10 d.
Proof.
  unfold parseInt10. induction k as [|k IH]; [reflexivity|]. exact IH.
Qed.

Lemma all_digits_zeros (k : nat) : all_digits (repeat 48%N k).
Proof. induction k; constructor; [reflexivity | assumption]. Qed.

Lemma matches_term_chars (t d1 : jsstring) (o : option jsstring) :
  matches_term t d1 o ->
  Forall (fun c => isDigit c = true \/ c = hyphen) t.
Proof.
  intros H; destruct H as [d _ Hd | a b _ Ha _ Hb].
  - eapply Forall_impl; [|exact Hd]. auto.
  - apply Forall_app. split; [eapply Forall_impl; [|exact Ha]; auto|].
    constructor; [right; reflexivity|].
    eapply Forall_impl; [|exact Hb]. auto.
Qed.

Lemma term_ok_no_blank (max : Z) (t : jsstring) (c : code_unit) :
  term_ok max t -> In c t -> isWhiteSpace c = false.
Proof.
  intros (d1 & o & Hm & _) Hin.
  pose proof (matches_term_chars _ _ _ Hm) as Hc.
  rewrite Forall_forall in Hc. destruct (Hc _ Hin) as [Hd| ->].
  - apply digit_not_blank; exact Hd.
  - reflexivity.
Qed.

(** The verdict depends on the trimmed fields only. *)
Lemma trim_nil_fields (e : jsstring) :
  trim e = [] <-> map trim (String_split comma e) = [[]].
Proof.
  split; intros H.
  - assert (Hnc : ~ In comma e).
    { intros Hin. exact (comma_not_blank e Hin H). }
    rewrite (String_split_no_sep _ _ Hnc). simpl. rewrite H. reflexivity.
  - pose proof (join_String_split e) as Hj.
    destruct (String_split comma e) as [|t [|u r]]; try discriminate.
    simpl in Hj, H. subst t. injection H as H. exact H.
Qed.

Lemma isValidSplit_trimmed_fields (e e' : jsstring) (max : Z) :
  map trim (String_split comma e) = map trim (String_split comma e') ->
  isValidSplit e max = isValidSplit e' max.
Proof.
  intros H. unfold isValidSplit, split_parts. rewrite H.
  replace (truthy (trim e)) with (truthy (trim e')); [reflexivity|].
  pose proof (trim_nil_fields e) as He. pose proof (trim_nil_fields e') as He'.
  rewrite H in He.
  destruct (trim e) as [|x s], (trim e') as [|y s']; try reflexivity.
  - assert (E : y :: s' = []) by (apply He'; apply He; reflexivity).
    discriminate.
  - assert (E : x :: s = []) by (apply He; apply He'; reflexivity).
    discriminate.
Qed.

Lemma String_split_join (ts : list jsstring) :
  ts <> [] -> (forall t, In t ts -> ~ In comma t) ->
  String_split comma (join_comma ts) = ts.
Proof.
  induction ts as [|t l IH]; [contradiction|]. intros _ Hc.
  destruct l as [|u l].
  - simpl. apply String_split_no_sep. apply Hc. left; reflexivity.
  - rewrite join_comma_cons by discriminate.
    rewrite String_split_app. rewrite IH.
    + rewrite String_split_no_sep; [reflexivity|]. apply Hc. left; reflexivity.
    + discriminate.
    + intros x Hx. apply Hc. right; exact Hx.
Qed.

Lemma all_blank_no_comma (ws : jsstring) : all_blank ws -> ~ In comma ws.
Proof.
  unfold all_blank. rewrite Forall_forall. intros H Hin.
  specialize (H _ Hin). discriminate.
Qed.

(** Blanks around the terms of an expression do not change the verdict. *)
Lemma blanks_around_terms (xs : list padded) (max : Z) :
  Forall padding_ok xs ->
  isValidSplit (join_comma (map with_blanks xs)) max
  = isValidSplit (join_comma (map term xs)) max.
Proof.
  intros H. destruct xs as [|x xs]; [reflexivity|].
  apply isValidSplit_trimmed_fields.
  rewrite !String_split_join; try discriminate.
  - rewrite !map_map. apply map_ext_in. intros y Hy.
    rewrite Forall_forall in H. destruct (H _ Hy) as (Hb & Ha & _).
    apply trim_pad; assumption.
  - intros t Ht. apply in_map_iff in Ht. destruct Ht as (y & <- & Hy).
    rewrite Forall_forall in H. destruct (H _ Hy) as (_ & _ & Hc). exact Hc.
  - intros t Ht. apply in_map_iff in Ht. destruct Ht as (y & <- & Hy).
    rewrite Forall_forall in H. destruct (H _ Hy) as (Hb & Ha & Hc).
    unfold with_blanks. intros Hin.
    apply in_app_or in Hin. destruct Hin as [Hin|Hin];
      [exact (all_blank_no_comma _ Hb Hin)|].
    apply in_app_or in Hin. destruct Hin as [Hin|Hin];
      [exact (Hc Hin) | exact (all_blank_no_comma _ Ha Hin)].
Qed.

(** A blank inside a term, after trimming, invalidates the expression. *)
Lemma blank_inside_term_rejected (e t : jsstring) (c : code_unit) (max : Z) :
  In t (String_split comma e) -> In c (trim t) -> isWhiteSpace c = true ->
  isValidSplit e max = false.
Proof.
  intros Ht Hc Hw.
  destruct (isValidSplit e max) eqn:E; [|reflexivity].
  apply isValidSplit_true in E. destruct E as [_ E].
  apply split_parts_forall in E.
  assert (Hn : trim t <> []) by (intros Hn; rewrite Hn in Hc; destruct Hc).
  pose proof (term_ok_no_blank _ _ _ (E t Ht Hn) Hc). congruence.
Qed.

(** Zeros in front of a page number do not change the verdict. *)
Lemma leading_zeros_accepted (k : nat) (d : jsstring) (max : Z) :
  all_digits d -> d <> [] ->
  isValidSplit (repeat 48%N k ++ d) max = isValidSplit d max.
Proof.
  intros Hd Hne.
  assert (Hz : all_digits (repeat 48%N k ++ d))
    by (apply Forall_app; split; [apply all_digits_zeros | exact Hd]).
  assert (Hzn : repeat 48%N k ++ d <> [])
    by (destruct k; [exact Hne | discriminate]).
  assert (Hone : forall s, all_digits s -> s <> [] ->
            isValidSplit s max
            = negb ((parseInt10 s <? 1) || (parseInt10 s <? 1)
                    || (parseInt10 s >? max) || (parseInt10 s >? max)
                    || (parseInt10 s >? parseInt10 s))%Z).
  { intros s Hs Hsn.
    assert (Hnb : Forall (fun c => isWhiteSpace c = false) s)
      by (eapply Forall_impl; [|exact Hs]; apply digit_not_blank).
    assert (Hnc : ~ In comma s).
    { intros Hin. unfold all_digits in Hs. rewrite Forall_forall in Hs.
      exact (digit_not_comma _ (Hs _ Hin) eq_refl). }
    unfold isValidSplit, split_parts.
    rewrite (String_split_no_sep _ _ Hnc). cbn [map].
    rewrite (trim_id _ Hnb).
    destruct s as [|x s]; [contradiction|]. cbn [truthy negb filter check_parts].
    rewrite (re_match_complete _ _ _ (term_page (x :: s) Hsn Hs)).
    destruct (_ || _)%bool; reflexivity. }
  rewrite (Hone _ Hz Hzn), (Hone _ Hd Hne), parseInt10_leading_zeros.
  reflexivity.
Qed.

(** ** Rows *)

(** C3: [canGenerate] is true exactly when there is at least one row and the
    selection of every row is valid for the page count of that row; it is
    false without rows, and false as soon as the selection of one row is
    invalid for its page count. *)
Theorem canGenerate_iff (rows : list Row) :
  (canGenerate rows = true
   <-> rows <> []
       /\ forall r, In r rows -> isValidSplit (split r) (pages r) = true)
  /\ canGenerate [] = false
  /\ (forall r, In r rows -> isValidSplit (split r) (pages r) = false ->
        canGenerate rows = false).
Proof.
  assert (Hiff : canGenerate rows = true
            <-> rows <> []
                /\ forall r, In r rows ->
                     isValidSplit (split r) (pages r) = true).
  { unfold canGenerate. rewrite andb_true_iff, forallb_forall, Z.ltb_lt.
    destruct rows as [|r rows]; simpl List.length.
    - split; [intros [H _]; lia | intros [H _]; contradiction].
    - split; intros [_ H]; (split; [|exact H]); [discriminate | lia]. }
  split; [exact Hiff | split; [reflexivity|]].
  intros r Hin Hbad.
  destruct (canGenerate rows) eqn:E; [|reflexivity].
  destruct (proj1 Hiff eq_refl) as [_ Hall]. rewrite (Hall r Hin) in Hbad.
  discriminate.
Qed.

Lemma canGenerate_iff_witness :
  In (sample_row "k1" "11") [sample_row "k1" "11"]
  /\ isValidSplit (split (sample_row "k1" "11")) (pages (sample_row "k1" "11"))
     = false
  /\ canGenerate [sample_row "k1" "11"] = false.
Proof.
  assert (H1 : In (sample_row "k1" "11") [sample_row "k1" "11"])
    by (left; reflexivity).
  assert (H2 : isValidSplit (split (sample_row "k1" "11"))
                 (pages (sample_row "k1" "11")) = false) by reflexivity.
  split; [exact H1|]. split; [exact H2|].
  exact (proj2 (proj2 (canGenerate_iff [sample_row "k1" "11"])) _ H1 H2).
Defined.

Lemma nth_error_map_some {A B : Type} (f : A -> B) (l : list A) i x :
  nth_error l i = Some x -> nth_error (map f l) i = Some (f x).
Proof. intros H. rewrite nth_error_map, H. reflexivity. Qed.

(** C9: [updateSplit k s] keeps the number and the order of the rows; a row
    whose key is [k] gets [s] as its selection, whatever [s] is, and keeps
    all its other fields; every other row is left as it is. *)
Theorem updateSplit_frame (k s : jsstring) (rows : list Row) :
  List.length (updateSplit k s rows) = List.length rows
  /\ map key (updateSplit k s rows) = map key rows
  /\ forall i r, nth_error rows i = Some r ->
       exists r', nth_error (updateSplit k s rows) i = Some r'
         /\ documentId r' = documentId r /\ name r' = name r
         /\ size r' = size r /\ pages r' = pages r /\ key r' = key r
         /\ (key r = k -> split r' = s)
         /\ (key r <> k -> r' = r).
Proof.
  unfold updateSplit. split; [apply length_map|]. split.
  - rewrite map_map. apply map_ext. intros r.
    destruct (str_eqb (key r) k); reflexivity.
  - intros i r Hi. eexists. split; [apply nth_error_map_some; exact Hi|].
    destruct (str_eqb (key r) k) eqn:E.
    + apply str_eqb_eq in E. repeat split; try reflexivity.
      intros Hne; contradiction.
    + apply str_eqb_neq in E. repeat split; try reflexivity.
      intros He; contradiction.
Qed.

Lemma updateSplit_frame_witness :
  nth_error [sample_row "k1" "1-10"; sample_row "k2" "2"] 0
  = Some (sample_row "k1" "1-10")
  /\ exists r',
       nth_error (updateSplit (lit "k1") (lit "1-")
                    [sample_row "k1" "1-10"; sample_row "k2" "2"]) 0
       = Some r'
       /\ split r' = lit "1-".
Proof.
  assert (H : nth_error [sample_row "k1" "1-10"; sample_row "k2" "2"] 0
              = Some (sample_row "k1" "1-10")) by reflexivity.
  split; [exact H|].
  destruct (proj2 (proj2 (updateSplit_frame (lit "k1") (lit "1-")
                            [sample_row "k1" "1-10"; sample_row "k2" "2"]))
              0%nat _ H)
    as (r' & Hn & _ & _ & _ & _ & _ & Hs & _).
  exists r'. split; [exact Hn | exact (Hs eq_refl)].
Defined.

Lemma findIndex_from_none {T : Type} (f : T -> bool) (l : list T) (i : Z) :
  Forall (fun x => f x = false) l -> findIndex_from f l i = (-1)%Z.
Proof.
  intros H; revert i; induction H as [|x l Hx _ IH]; intros i; simpl;
    [reflexivity|].
  rewrite Hx. apply IH.
Qed.

Lemma findIndex_from_first {T : Type} (f : T -> bool) (l1 l2 : list T) x i :
  Forall (fun y => f y = false) l1 -> f x = true ->
  findIndex_from f (l1 ++ x :: l2) i = (i + Z.of_nat (List.length l1))%Z.
Proof.
  intros H Hx; revert i; induction H as [|y l Hy _ IH]; intros i; simpl.
  - rewrite Hx. lia.
  - rewrite Hy, IH. lia.
Qed.

Lemma firstn_length_app {T : Type} (l1 l2 : list T) (n : nat) :
  firstn (List.length l1 + n) (l1 ++ l2) = l1 ++ firstn n l2.
Proof. induction l1; simpl; congruence. Qed.

Lemma skipn_length_app {T : Type} (l1 l2 : list T) (n : nat) :
  skipn (List.length l1 + n) (l1 ++ l2) = skipn n l2.
Proof. induction l1; simpl; congruence. Qed.

Lemma remove_at_length_app {T : Type} (l1 l2 : list T) (n : nat) :
  remove_at (List.length l1 + n) (l1 ++ l2) = l1 ++ remove_at n l2.
Proof. induction l1; simpl; congruence. Qed.

Lemma nth_error_length_app {T : Type} (l1 l2 : list T) (n : nat) :
  nth_error (l1 ++ l2) (List.length l1 + n) = nth_error l2 n.
Proof. induction l1; simpl; congruence. Qed.

Lemma key_absent_forall (k : jsstring) (rows : list Row) :
  ~ In k (map key rows) ->
  Forall (fun r => str_eqb (key r) k = false) rows.
Proof.
  intros H. apply Forall_forall. intros r Hr. apply str_eqb_neq.
  intros E. apply H. rewrite <- E. apply in_map; exact Hr.
Qed.

(** The copy goes right behind the first row with the key. *)
Lemma duplicateRow_found (uuid k : jsstring) (l1 l2 : list Row) (r : Row) :
  ~ In k (map key l1) -> key r = k ->
  duplicateRow uuid k (l1 ++ r :: l2) = l1 ++ r :: with_key r uuid :: l2.
Proof.
  intros Hl1 Hr. unfold duplicateRow, findIndex.
  rewrite (findIndex_from_first _ l1 l2 r 0 (key_absent_forall _ _ Hl1))
    by (apply str_eqb_eq; exact Hr).
  destruct (Z.eqb_spec (0 + Z.of_nat (List.length l1)) (-1)) as [E|_]; [lia|].
  unfold slice_to, slice_from.
  replace (Z.to_nat (0 + Z.of_nat (List.length l1)))
    with (List.length l1 + 0)%nat by lia.
  replace (Z.to_nat (0 + Z.of_nat (List.length l1) + 1))
    with (List.length l1 + 1)%nat by lia.
  rewrite nth_error_length_app, firstn_length_app, skipn_length_app.
  simpl. rewrite <- app_assoc. reflexivity.
Qed.

Lemma duplicateRow_absent (uuid k : jsstring) (rows : list Row) :
  ~ In k (map key rows) -> duplicateRow uuid k rows = rows.
Proof.
  intros H. unfold duplicateRow, findIndex.
  rewrite (findIndex_from_none _ _ 0 (key_absent_forall _ _ H)).
  reflexivity.
Qed.

Lemma NoDup_insert {A : Type} (a : A) (l l' : list A) :
  NoDup (l ++ l') -> ~ In a (l ++ l') -> NoDup (l ++ a :: l').
Proof.
  induction l as [|x l IH]; simpl; intros Hnd Hin.
  - constructor; assumption.
  - inversion Hnd as [|? ? Hx Hnd']; subst. constructor.
    + intros Hx'. apply Hx. apply in_app_or in Hx'. apply in_or_app.
      destruct Hx' as [Hx'|[Hx'|Hx']]; [left; exact Hx' | | right; exact Hx'].
      exfalso. apply Hin. left. symmetry. exact Hx'.
    + apply IH; [exact Hnd' | tauto].
Qed.

(** C7: in a collection with distinct keys, [duplicateRow] of the key of the
    row at index [i] gives a collection one row longer; the new row is at
    index [i + 1], has the selection, the document id and the other fields of
    the source, and has the fresh key, which differs from every key of the
    collection; the rows up to [i] stay where they are, the rows behind [i]
    follow the new row in their order (taking the new row out gives the
    collection back), and the keys stay distinct.  For a key that no row has,
    the collection is returned as it is. *)
Theorem duplicateRow_spec (uuid k : jsstring) (rows : list Row) :
  (forall i r,
     NoDup (map key rows) -> nth_error rows i = Some r -> key r = k ->
     ~ In uuid (map key rows) ->
     List.length (duplicateRow uuid k rows) = S (List.length rows)
     /\ (exists copy,
           nth_error (duplicateRow uuid k rows) (S i) = Some copy
           /\ split copy = split r /\ documentId copy = documentId r
           /\ name copy = name r /\ size copy = size r
           /\ pages copy = pages r
           /\ key copy = uuid /\ ~ In (key copy) (map key rows))
     /\ (forall j, j <= i ->
           nth_error (duplicateRow uuid k rows) j = nth_error rows j)
     /\ (forall j, i < j ->
           nth_error (duplicateRow uuid k rows) (S j) = nth_error rows j)
     /\ remove_at (S i) (duplicateRow uuid k rows) = rows
     /\ NoDup (map key (duplicateRow uuid k rows)))
  /\ (~ In k (map key rows) -> duplicateRow uuid k rows = rows).
Proof.
  split; [|apply duplicateRow_absent].
  intros i r Hnd Hi Hk Hfresh.
  destruct (nth_error_split rows i Hi) as (l1 & l2 & -> & Hlen).
  assert (Hl1 : ~ In k (map key l1)).
  { rewrite map_app in Hnd. simpl in Hnd. rewrite Hk in Hnd.
    apply NoDup_remove_2 in Hnd. intros H. apply Hnd.
    apply in_or_app. left; exact H. }
  rewrite (duplicateRow_found uuid k l1 l2 r Hl1 Hk).
  subst i. repeat split.
  - rewrite !length_app. simpl. lia.
  - exists (with_key r uuid).
    replace (S (List.length l1)) with (List.length l1 + 1)%nat by lia.
    rewrite nth_error_length_app. simpl. repeat split. exact Hfresh.
  - intros j Hj. destruct (Nat.eq_dec j (List.length l1)) as [->|Hne].
    + rewrite <- (Nat.add_0_r (List.length l1)).
      rewrite !nth_error_length_app. reflexivity.
    + rewrite !nth_error_app1 by lia. reflexivity.
  - intros j Hj.
    replace (S j) with (List.length l1 + S (S (j - S (List.length l1))))%nat
      by lia.
    replace j with (List.length l1 + S (j - S (List.length l1)))%nat at 2
      by lia.
    rewrite !nth_error_length_app. reflexivity.
  - replace (S (List.length l1)) with (List.length l1 + 1)%nat by lia.
    rewrite remove_at_length_app. reflexivity.
  - rewrite map_app. simpl.
    change (map key l1 ++ key r :: uuid :: map key l2)
      with (map key l1 ++ [key r] ++ uuid :: map key l2).
    rewrite app_assoc. apply NoDup_insert.
    + rewrite <- app_assoc. simpl. rewrite <- (map_cons key r l2).
      rewrite <- map_app. exact Hnd.
    + rewrite <- app_assoc. simpl. rewrite <- (map_cons key r l2).
      rewrite <- map_app. exact Hfresh.
Qed.

Lemma sample_keys_distinct :
  NoDup (map key [sample_row "a" "1"; sample_row "b" "2-3";
                  sample_row "c" "4"]).
Proof.
  repeat constructor; vm_compute; intuition discriminate.
Defined.

Lemma duplicateRow_spec_witness :
  ~ In (lit "d") (map key [sample_row "a" "1"; sample_row "b" "2-3";
                           sample_row "c" "4"])
  /\ List.length (duplicateRow (lit "d") (lit "b")
                    [sample_row "a" "1"; sample_row "b" "2-3";
                     sample_row "c" "4"]) = 4%nat
  /\ exists copy,
       nth_error (duplicateRow (lit "d") (lit "b")
                    [sample_row "a" "1"; sample_row "b" "2-3";
                     sample_row "c" "4"]) 2 = Some copy
       /\ split copy = lit "2-3" /\ key copy = lit "d".
Proof.
  assert (Hf : ~ In (lit "d") (map key [sample_row "a" "1";
                                        sample_row "b" "2-3";
                                        sample_row "c" "4"]))
    by (vm_compute; intuition discriminate).
  destruct (proj1 (duplicateRow_spec (lit "d") (lit "b")
                     [sample_row "a" "1"; sample_row "b" "2-3";
                      sample_row "c" "4"])
              1%nat (sample_row "b" "2-3") sample_keys_distinct
              eq_refl eq_refl Hf)
    as (Hlen & (copy & Hn & Hs & _ & _ & _ & _ & Hk & _) & _).
  split; [exact Hf|]. split; [exact Hlen|].
  exists copy. split; [exact Hn|]. split; [exact Hs | exact Hk].
Defined.

(** ** Reordering *)

Lemma nth_error_remove_at {T : Type} (l : list T) (i j : nat) :
  nth_error (remove_at i l) j
  = if j <? i then nth_error l j else nth_error l (S j).
Proof.
  revert i j; induction l as [|x l IH]; intros i j.
  - assert (E : remove_at i (@nil T) = []) by (destruct i; reflexivity).
    rewrite E. destruct (j <? i); destruct j; reflexivity.
  - destruct i as [|i]; [reflexivity|].
    destruct j as [|j]; [reflexivity|].
    cbn [remove_at nth_error]. rewrite IH.
    change (S j <? S i) with (j <? i). reflexivity.
Qed.

Lemma nth_error_insert_at {T : Type} (l : list T) (x : T) (i j : nat) :
  i <= List.length l ->
  nth_error (insert_at i x l) j
  = if j <? i then nth_error l j
    else if j =? i then Some x else nth_error l (pred j).
Proof.
  revert l j; induction i as [|i IH]; intros l j Hi.
  - destruct j; reflexivity.
  - destruct l as [|y l]; [simpl in Hi; lia|].
    destruct j as [|j]; [reflexivity|].
    cbn [insert_at nth_error]. rewrite IH by (simpl in Hi; lia).
    change (S j <? S i) with (j <? i). change (S j =? S i) with (j =? i).
    destruct (j <? i) eqn:E1; [reflexivity|].
    destruct (Nat.eqb_spec j i); [reflexivity|].
    apply Nat.ltb_ge in E1. destruct j; [lia | reflexivity].
Qed.

Lemma length_remove_at {T : Type} (l : list T) (i : nat) :
  i < List.length l -> List.length (remove_at i l) = pred (List.length l).
Proof.
  revert i; induction l as [|x l IH]; intros i Hi; [simpl in Hi; lia|].
  destruct i as [|i]; [reflexivity|].
  cbn [remove_at List.length] in *. rewrite IH by lia. lia.
Qed.

Lemma length_insert_at {T : Type} (l : list T) (x : T) (i : nat) :
  List.length (insert_at i x l) = S (List.length l).
Proof.
  revert l; induction i as [|i IH]; intros l; [reflexivity|].
  destruct l; [reflexivity|]. simpl. rewrite IH. reflexivity.
Qed.

Lemma remove_insert_at {T : Type} (l : list T) (x : T) (i : nat) :
  i <= List.length l -> remove_at i (insert_at i x l) = l.
Proof.
  revert l; induction i as [|i IH]; intros l Hi; [reflexivity|].
  destruct l as [|y l]; [simpl in Hi; lia|].
  simpl. rewrite IH by (simpl in Hi; lia). reflexivity.
Qed.

Lemma insert_remove_at {T : Type} (l : list T) (x : T) (i : nat) :
  nth_error l i = Some x -> insert_at i x (remove_at i l) = l.
Proof.
  revert i; induction l as [|y l IH]; intros i Hi.
  - destruct i; discriminate.
  - destruct i as [|i]; simpl in *; [congruence|].
    rewrite IH by exact Hi. reflexivity.
Qed.

Lemma arrayMove_in_bounds {T : Type} (array : list T) (from to : nat) (x : T) :
  nth_error array from = Some x -> to < List.length array ->
  arrayMove array (Z.of_nat from) (Z.of_nat to)
  = insert_at to x (remove_at from array).
Proof.
  intros Hx Hto.
  assert (Hfrom : from < List.length array)
    by (apply nth_error_Some; congruence).
  unfold arrayMove.
  replace ((0 <=? Z.of_nat from) && (Z.of_nat from <? Z.of_nat (List.length array))
           && (0 <=? Z.of_nat to) && (Z.of_nat to <? Z.of_nat (List.length array)))%Z
    with true.
  - rewrite !Nat2Z.id, Hx. reflexivity.
  - symmetry. rewrite !andb_true_iff, !Z.leb_le, !Z.ltb_lt. lia.
Qed.

(** C6: for indices within bounds, [arrayMove array from to] has the length
    of [array], holds at [to] the entry that was at [from], holds between the
    two indices the intervening entries shifted by one and elsewhere the
    entries in their places, and is [array] with the moved entry taken out
    once the entry at [to] is taken out of it; for equal indices it is
    [array]; and on [[A; B; C]] moving 0 to 2 gives [[B; C; A]] and moving 2
    to 0 gives [[C; A; B]]. *)
Theorem arrayMove_spec (T : Type) (array : list T) (from to : nat) :
  from < List.length array -> to < List.length array ->
  List.length (arrayMove array (Z.of_nat from) (Z.of_nat to))
  = List.length array
  /\ nth_error (arrayMove array (Z.of_nat from) (Z.of_nat to)) to
     = nth_error array from
  /\ (forall j,
        nth_error (arrayMove array (Z.of_nat from) (Z.of_nat to)) j
        = nth_error array (source_index from to j))
  /\ remove_at to (arrayMove array (Z.of_nat from) (Z.of_nat to))
     = remove_at from array
  /\ (from = to -> arrayMove array (Z.of_nat from) (Z.of_nat to) = array)
  /\ (forall A B C : T,
        arrayMove [A; B; C] 0 2 = [B; C; A]
        /\ arrayMove [A; B; C] 2 0 = [C; A; B]).
Proof.
  intros Hfrom Hto.
  destruct (nth_error array from) as [x|] eqn:Hx;
    [|apply nth_error_None in Hx; lia].
  rewrite (arrayMove_in_bounds array from to x Hx Hto).
  pose proof (length_remove_at array from Hfrom) as Hlen.
  assert (Hidx : forall j,
            nth_error (insert_at to x (remove_at from array)) j
            = nth_error array (source_index from to j)).
  { intros j. rewrite nth_error_insert_at by lia.
    rewrite !nth_error_remove_at. unfold source_index.
    destruct (Nat.eqb_spec j to) as [->|Hne].
    - rewrite Nat.ltb_irrefl. symmetry; exact Hx.
    - destruct (Nat.ltb_spec j to), (Nat.ltb_spec to j),
        (Nat.leb_spec from j), (Nat.leb_spec j from),
        (Nat.ltb_spec j from), (Nat.ltb_spec (pred j) from);
        cbn [andb]; try lia; try reflexivity; f_equal; lia. }
  repeat split.
  - rewrite length_insert_at. lia.
  - rewrite Hidx. unfold source_index. rewrite Nat.eqb_refl. exact Hx.
  - exact Hidx.
  - apply remove_insert_at. lia.
  - intros <-. apply insert_remove_at. exact Hx.
Qed.

Lemma arrayMove_spec_witness :
  (0 < List.length [1; 2; 3])%nat /\ (2 < List.length [1; 2; 3])%nat
  /\ remove_at 2 (arrayMove [1; 2; 3]%nat (Z.of_nat 0) (Z.of_nat 2))
     = remove_at 0 [1; 2; 3]%nat.
Proof.
  assert (H0 : (0 < List.length [1; 2; 3])%nat) by (simpl; lia).
  assert (H2 : (2 < List.length [1; 2; 3])%nat) by (simpl; lia).
  split; [exact H0|]. split; [exact H2|].
  exact (proj1 (proj2 (proj2 (proj2
           (arrayMove_spec nat [1; 2; 3]%nat 0 2 H0 H2))))).
Defined.

Lemma findIndex_key (rows : list Row) (i : nat) (r : Row) :
  NoDup (map key rows) -> nth_error rows i = Some r ->
  findIndex (fun r' => str_eqb (key r') (key r)) rows = Z.of_nat i.
Proof.
  intros Hnd Hi.
  destruct (nth_error_split rows i Hi) as (l1 & l2 & -> & Hlen).
  unfold findIndex. rewrite findIndex_from_first.
  - lia.
  - apply key_absent_forall. rewrite map_app in Hnd. simpl in Hnd.
    apply NoDup_remove_2 in Hnd. intros H. apply Hnd.
    apply in_or_app. left; exact H.
  - apply str_eqb_refl.
Qed.

(** Dropping the row [a] on another row [b] moves [a] to the index of [b];
    dropping it on itself or outside the rows changes nothing. *)
Lemma onDragEnd_moves (rows : list Row) (i j : nat) (a b : Row) :
  NoDup (map key rows) ->
  nth_error rows i = Some a -> nth_error rows j = Some b -> i <> j ->
  onDragEnd (key a) (Some (key b)) rows
  = arrayMove rows (Z.of_nat i) (Z.of_nat j).
Proof.
  intros Hnd Hi Hj Hne. unfold onDragEnd.
  assert (Hk : key a <> key b).
  { intros E. apply Hne.
    assert (Hlt : i < List.length (map key rows)).
    { rewrite length_map. apply nth_error_Some. congruence. }
    apply (proj1 (NoDup_nth_error (map key rows)) Hnd i j Hlt).
    rewrite (nth_error_map_some key rows i a Hi).
    rewrite (nth_error_map_some key rows j b Hj). congruence. }
  apply str_eqb_neq in Hk. rewrite Hk. cbn [negb].
  rewrite (findIndex_key rows i a Hnd Hi), (findIndex_key rows j b Hnd Hj).
  reflexivity.
Qed.

Lemma onDragEnd_same (k : jsstring) (rows : list Row) :
  onDragEnd k (Some k) rows = rows /\ onDragEnd k None rows = rows.
Proof.
  unfold onDragEnd. rewrite str_eqb_refl. split; reflexivity.
Qed.

(** ** The upload workflow *)

Ltac run_handler :=
  unfold uploadPDF, bind, try_finally, try_catch, setError, setUploading,
    setRows, modify, fetch, json, throw, ret.

(** C4: when the upload fails (the network is unreachable, the response is
    not a success, or its body cannot be read), [uploadPDF] returns without
    throwing, the rows are what they were, [error] holds a message that is
    not empty (["Upload failed (status)"] for a response that is not a
    success), [uploading] is false again, and nothing else of the state has
    changed; the one request has been sent. *)
Theorem uploadPDF_failure (net : FetchOutcome) (uuid : jsstring) (file : File)
    (w : World) :
  upload_fails net ->
  fst (uploadPDF net uuid file w) = inr tt
  /\ rows (app (snd (uploadPDF net uuid file w))) = rows (app w)
  /\ (exists msg, error (app (snd (uploadPDF net uuid file w))) = Some msg
                  /\ msg <> [])
  /\ (forall res, net = Responded res -> res_ok res = false ->
        error (app (snd (uploadPDF net uuid file w)))
        = Some (lit "Upload failed (" ++ Number_toString (res_status res)
                  ++ lit ")"))
  /\ uploading (app (snd (uploadPDF net uuid file w))) = false
  /\ loading (app (snd (uploadPDF net uuid file w))) = loading (app w)
  /\ outputName (app (snd (uploadPDF net uuid file w))) = outputName (app w)
  /\ sent (snd (uploadPDF net uuid file w))
     = sent w ++ [PostUpload {| file_name := file_name file;
                                file_type := application_pdf |}].
Proof.
  intros Hfail.
  run_handler.
  destruct net as [m|res]; cbn [fst snd app sent rows error uploading loading
                                  outputName message or_else].
  - repeat split; try discriminate.
    destruct m as [|c m]; cbn [truthy]; eexists; split;
      try reflexivity; discriminate.
  - destruct (res_ok res) eqn:Hok; cbn [negb fst snd app sent rows error
                                          uploading loading outputName
                                          message or_else truthy].
    + simpl in Hfail. destruct Hfail as [Hbad|[m Hm]]; [congruence|].
      rewrite Hm. cbn [fst snd app sent rows error uploading loading
                         outputName message or_else].
      repeat split.
      * destruct m as [|c m]; cbn [truthy]; eexists; split;
          try reflexivity; discriminate.
      * intros res' E Hno. injection E as <-. congruence.
    + repeat split.
      * eexists; split; [reflexivity | discriminate].
      * intros res' E _. injection E as <-. reflexivity.
Qed.

(** X26: a successful upload appends one row, with the document id, the
    size and the page count the server reports, the name of the file, the new
    key and the default selection for the page count, and leaves [error]
    empty, whatever it held before. *)
Lemma uploadPDF_success (res : Response) (meta : UploadedDocMeta)
    (uuid : jsstring) (file : File) (w : World) :
  res_ok res = true -> res_json res = inr meta ->
  fst (uploadPDF (Responded res) uuid file w) = inr tt
  /\ rows (app (snd (uploadPDF (Responded res) uuid file w)))
     = rows (app w)
       ++ [{| documentId := meta_documentId meta; name := file_name file;
              size := meta_size meta; pages := meta_pages meta;
              key := uuid;
              split := defaultSplitForPages (meta_pages meta) |}]
  /\ error (app (snd (uploadPDF (Responded res) uuid file w))) = None
  /\ uploading (app (snd (uploadPDF (Responded res) uuid file w))) = false.
Proof.
  intros Hok Hjson.
  run_handler.
  cbn [fst snd app sent rows error uploading loading outputName].
  rewrite Hok, Hjson. cbn. repeat split.
Qed.

(** C5, as the spec words it, fails: dropping a text file on the fresh
    application leaves [error] empty, no error is surfaced. *)
Lemma non_pdf_drop_surfaces_no_error :
  ~ (exists msg,
       error (app (snd (onDrop (NetworkError []) (lit "uuid-1")
                          [{| file_name := lit "notes.txt";
                              file_type := lit "text/plain" |}]
                          initial)))
       = Some msg).
Proof. intros [msg H]. vm_compute in H. discriminate H. Qed.

(** C5 (amended): a drop whose first file is not of type [application/pdf],
    and a paste without an item of that type, do nothing at all: the handler
    returns, no request is sent, and the rows, the flags and [error] are
    what they were. *)
Theorem non_pdf_intake_ignored (net : FetchOutcome) (uuid : jsstring)
    (w : World) :
  (forall file rest, file_type file <> application_pdf ->
     onDrop net uuid (file :: rest) w = (inr tt, w))
  /\ (forall items,
        (forall i, In i items -> item_type i <> application_pdf) ->
        onPaste net uuid items w = (inr tt, w)).
Proof.
  split.
  - intros file rest Hty. unfold onDrop. cbn [hd_error].
    apply str_eqb_neq in Hty. rewrite Hty. reflexivity.
  - intros items Hall. unfold onPaste.
    destruct (find _ items) as [item|] eqn:E; [|reflexivity].
    apply find_some in E. destruct E as [Hin Hty].
    apply str_eqb_eq in Hty. exfalso. exact (Hall item Hin Hty).
Qed.

Lemma non_pdf_intake_ignored_witness :
  file_type {| file_name := lit "notes.txt"; file_type := lit "text/plain" |}
  <> application_pdf
  /\ onDrop (NetworkError []) (lit "uuid-1")
       [{| file_name := lit "notes.txt"; file_type := lit "text/plain" |}]
       initial
     = (inr tt, initial).
Proof.
  assert (H : file_type {| file_name := lit "notes.txt";
                           file_type := lit "text/plain" |}
              <> application_pdf) by (vm_compute; discriminate).
  split; [exact H|].
  exact (proj1 (non_pdf_intake_ignored (NetworkError []) (lit "uuid-1")
                  initial) _ [] H).
Defined.

Lemma uploadPDF_failure_witness :
  upload_fails (Responded {| res_status := 500; res_json := inl [] |})
  /\ error (app (snd (uploadPDF
                        (Responded {| res_status := 500; res_json := inl [] |})
                        (lit "uuid-1")
                        {| file_name := lit "a.pdf";
                           file_type := application_pdf |}
                        initial)))
     = Some (lit "Upload failed (500)")
  /\ rows (app (snd (uploadPDF
                       (Responded {| res_status := 500; res_json := inl [] |})
                       (lit "uuid-1")
                       {| file_name := lit "a.pdf";
                          file_type := application_pdf |}
                       initial)))
     = [].
Proof.
  assert (H : upload_fails
                (Responded {| res_status := 500; res_json := inl [] |}))
    by (left; reflexivity).
  pose proof (uploadPDF_failure
                (Responded {| res_status := 500; res_json := inl [] |})
                (lit "uuid-1")
                {| file_name := lit "a.pdf"; file_type := application_pdf |}
                initial H) as (_ & Hrows & _ & Hmsg & _).
  split; [exact H|]. split.
  - exact (Hmsg _ eq_refl eq_refl).
  - exact Hrows.
Defined.

(** ** Examples *)

Example isValidSplit_tips : isValidSplit (lit "1-4,10,12-14") 14 = true.
Proof. reflexivity. Qed.

Example isValidSplit_overlap : isValidSplit (lit "2-5,3") 5 = true.
Proof. reflexivity. Qed.

Example isValidSplit_rejects :
  isValidSplit (lit "5-2") 5 = false /\ isValidSplit (lit "0-3") 5 = false
  /\ isValidSplit (lit "1-6") 5 = false /\ isValidSplit (lit "   ") 5 = false
  /\ isValidSplit (lit "") 5 = false.
Proof. repeat split; reflexivity. Qed.

Example isValidSplit_stray_commas :
  isValidSplit (lit "1,,2") 5 = true /\ isValidSplit (lit ",1,2,") 5 = true.
Proof. split; reflexivity. Qed.

Example defaultSplitForPages_ten : defaultSplitForPages 10 = lit "1-10".
Proof. reflexivity. Qed.

(** A ten-page upload on the fresh application, then two edits. *)
Example upload_then_edit :
  let res := {| res_status := 200;
                res_json := inr {| meta_documentId := lit "doc-1";
                                   meta_name := lit "a.pdf";
                                   meta_size := 2048;
                                   meta_pages := 10 |} |} in
  let file := {| file_name := lit "a.pdf"; file_type := application_pdf |} in
  let rs := rows (app (snd (uploadPDF (Responded res) (lit "k1") file
                              initial))) in
  rs = [sample_row "k1" "1-10"]
  /\ canGenerate rs = true
  /\ canGenerate (updateSplit (lit "k1") (lit "11") rs) = false
  /\ canGenerate (updateSplit (lit "k1") (lit "1-10,5") rs) = true.
Proof. repeat split; reflexivity. Qed.

Example onDragEnd_first_to_last :
  onDragEnd (lit "a") (Some (lit "c"))
    [sample_row "a" "1"; sample_row "b" "2"; sample_row "c" "3"]
  = [sample_row "b" "2"; sample_row "c" "3"; sample_row "a" "1"].
Proof. reflexivity. Qed.

(** * Further properties *)

(** ** More on the validator *)

Lemma term_ok_mono (max max' : Z) (t : jsstring) :
  (max <= max')%Z -> term_ok max t -> term_ok max' t.
Proof.
  intros Hle (d1 & o & Hm & Hb). exists d1, o. split; [exact Hm | lia].
Qed.

Lemma check_parts_app (ps qs : list jsstring) (max : Z) :
  check_parts (ps ++ qs) max = check_parts ps max && check_parts qs max.
Proof.
  induction ps as [|p ps IH]; simpl; [reflexivity|].
  destruct (re_match p) as [[m1 m3]|]; [|reflexivity].
  destruct (_ || _)%bool; [reflexivity | exact IH].
Qed.

Lemma isValidSplit_check (e : jsstring) (max : Z) :
  isValidSplit e max = true -> check_parts (split_parts e) max = true.
Proof.
  unfold isValidSplit. destruct (truthy (trim e)); simpl;
    [auto | discriminate].
Qed.

Lemma isValidSplit_has_term (e : jsstring) (max : Z) :
  has_term e -> isValidSplit e max = check_parts (split_parts e) max.
Proof.
  intros H. apply has_term_not_blank, truthy_true in H.
  unfold isValidSplit. rewrite H. reflexivity.
Qed.

Lemma isValidSplit_comma (a b : jsstring) (max : Z) :
  isValidSplit (a ++ comma :: b) max
  = check_parts (split_parts a) max && check_parts (split_parts b) max.
Proof.
  assert (H : truthy (trim (a ++ comma :: b)) = true).
  { apply truthy_true, comma_not_blank, in_or_app. right; left; reflexivity. }
  unfold isValidSplit. rewrite H. cbn [negb].
  rewrite split_parts_app. apply check_parts_app.
Qed.

Lemma String_split_cover sep (s : jsstring) (c : code_unit) :
  In c s -> c <> sep -> exists t, In t (String_split sep s) /\ In c t.
Proof.
  induction s as [|x s IH]; intros Hin Hne; [destruct Hin|].
  cbn [String_split].
  pose proof (String_split_not_nil sep s) as Hn.
  destruct (N.eqb_spec x sep) as [->|Hx].
  - destruct Hin as [<-|Hin]; [contradiction|].
    destruct (IH Hin Hne) as (t & Ht & Hc).
    exists t. split; [right; exact Ht | exact Hc].
  - destruct (String_split sep s) as [|f fs]; [contradiction|].
    destruct Hin as [<-|Hin].
    + exists (x :: f). split; left; reflexivity.
    + destruct (IH Hin Hne) as (t & [<-|Ht] & Hc).
      * exists (x :: f). split; [left; reflexivity | right; exact Hc].
      * exists t. split; [right; exact Ht | exact Hc].
Qed.

(** X1: a selection that is valid for a document stays valid for every
    document with at least as many pages. *)
Theorem isValidSplit_monotone (e : jsstring) (max max' : Z) :
  (max <= max')%Z -> isValidSplit e max = true -> isValidSplit e max' = true.
Proof.
  intros Hle H. apply isValidSplit_true in H. destruct H as [Hne Hall].
  apply isValidSplit_true. split; [exact Hne|].
  eapply Forall_impl; [|exact Hall]. intros t. apply term_ok_mono; exact Hle.
Qed.

Lemma isValidSplit_monotone_witness :
  (5 <= 9)%Z /\ isValidSplit (lit "2-5,3") 5 = true
  /\ isValidSplit (lit "2-5,3") 9 = true.
Proof.
  assert (H1 : (5 <= 9)%Z) by lia.
  assert (H2 : isValidSplit (lit "2-5,3") 5 = true) by reflexivity.
  split; [exact H1|]. split; [exact H2|].
  exact (isValidSplit_monotone (lit "2-5,3") 5 9 H1 H2).
Defined.

(** X2: a valid selection is written with digits, hyphens, commas and blanks
    only. *)
Theorem isValidSplit_alphabet (e : jsstring) (max : Z) :
  isValidSplit e max = true -> Forall selection_unit e.
Proof.
  intros H. apply isValidSplit_true in H. destruct H as [_ Hall].
  apply split_parts_forall in Hall.
  apply Forall_forall. intros c Hc. unfold selection_unit.
  destruct (N.eqb_spec c comma) as [->|Hne]; [auto|].
  destruct (String_split_cover comma e c Hc Hne) as (t & Ht & Hct).
  destruct (trim_decompose t) as (ws1 & ws2 & H1 & H2 & E).
  rewrite E in Hct. apply in_app_or in Hct. destruct Hct as [Hw|Hct].
  - unfold all_blank in H1. rewrite Forall_forall in H1. auto.
  - apply in_app_or in Hct. destruct Hct as [Hm|Hw].
    + assert (Hn : trim t <> [])
        by (intros Hn; rewrite Hn in Hm; destruct Hm).
      destruct (Hall t Ht Hn) as (d1 & o & Hmt & _).
      pose proof (matches_term_chars _ _ _ Hmt) as Hch.
      rewrite Forall_forall in Hch. destruct (Hch c Hm); auto.
    + unfold all_blank in H2. rewrite Forall_forall in H2. auto.
Qed.

Lemma isValidSplit_alphabet_witness :
  isValidSplit (lit "1, 2-4") 5 = true /\ Forall selection_unit (lit "1, 2-4").
Proof.
  assert (H : isValidSplit (lit "1, 2-4") 5 = true) by reflexivity.
  split; [exact H|]. exact (isValidSplit_alphabet (lit "1, 2-4") 5 H).
Defined.

(** X3: a selection of blanks only, of whatever kind of blank and for
    whatever page count, is invalid. *)
Theorem isValidSplit_blank (e : jsstring) (max : Z) :
  all_blank e -> isValidSplit e max = false.
Proof.
  intros H. apply trim_nil in H. unfold isValidSplit. rewrite H. reflexivity.
Qed.

Lemma isValidSplit_blank_witness :
  all_blank [32%N; 9%N; 160%N]
  /\ isValidSplit [32%N; 9%N; 160%N] 5 = false.
Proof.
  assert (H : all_blank [32%N; 9%N; 160%N]) by (repeat constructor).
  split; [exact H|]. exact (isValidSplit_blank [32%N; 9%N; 160%N] 5 H).
Defined.

(** X4: two selections that each have a term, joined by a comma, are valid
    exactly when both are valid. *)
Theorem isValidSplit_join (a b : jsstring) (max : Z) :
  has_term a -> has_term b ->
  (isValidSplit (a ++ comma :: b) max = true
   <-> isValidSplit a max = true /\ isValidSplit b max = true).
Proof.
  intros Ha Hb.
  rewrite isValidSplit_comma, (isValidSplit_has_term a max Ha),
    (isValidSplit_has_term b max Hb).
  apply andb_true_iff.
Qed.

Lemma has_term_digit (c : code_unit) (s : jsstring) :
  isDigit c = true -> has_term (c :: s).
Proof.
  intros Hd.
  destruct (String_split_cover comma (c :: s) c (or_introl eq_refl)
              (digit_not_comma c Hd)) as (t & Ht & Hc).
  exists t. split; [exact Ht|]. intros Hn. apply trim_nil in Hn.
  unfold all_blank in Hn. rewrite Forall_forall in Hn.
  specialize (Hn c Hc). rewrite (digit_not_blank c Hd) in Hn. discriminate.
Qed.

Lemma isValidSplit_join_witness :
  has_term (lit "1-3") /\ has_term (lit "5")
  /\ (isValidSplit (lit "1-3" ++ comma :: lit "5") 5 = true
      <-> isValidSplit (lit "1-3") 5 = true /\ isValidSplit (lit "5") 5 = true).
Proof.
  assert (H1 : has_term (lit "1-3")) by (apply has_term_digit; reflexivity).
  assert (H2 : has_term (lit "5")) by (apply has_term_digit; reflexivity).
  split; [exact H1|]. split; [exact H2|].
  exact (isValidSplit_join (lit "1-3") (lit "5") 5 H1 H2).
Defined.

(** X5: the order of the two sides of a comma does not matter for the
    verdict. *)
Theorem isValidSplit_comma_swap (a b : jsstring) (max : Z) :
  isValidSplit (a ++ comma :: b) max = isValidSplit (b ++ comma :: a) max.
Proof. rewrite !isValidSplit_comma. apply andb_comm. Qed.

(** ** Numerals as terms *)

Lemma Number_toString_nonneg (n : Z) :
  is_double n -> (0 <= n < ten21)%Z ->
  all_digits (Number_toString n) /\ Number_toString n <> []
  /\ parseInt10 (Number_toString n) = n.
Proof.
  intros Hd Hn. destruct (Z.eq_dec n 0) as [->|Hne].
  - repeat split; [repeat constructor | discriminate].
  - destruct (Number_toString_numeral n Hd ltac:(lia)) as (H1 & H2 & _ & H3).
    repeat split; assumption.
Qed.

Lemma digits_hyphen_plain (t : jsstring) :
  Forall (fun c => isDigit c = true \/ c = hyphen) t ->
  Forall (fun c => isWhiteSpace c = false) t /\ ~ In comma t.
Proof.
  intros H. split.
  - eapply Forall_impl; [|exact H]. intros c [Hd| ->];
      [apply digit_not_blank; exact Hd | reflexivity].
  - intros Hin. rewrite Forall_forall in H.
    destruct (H _ Hin) as [Hd|Hh]; discriminate.
Qed.

(** An expression of digits and hyphens is one term. *)
Lemma single_term_valid (t : jsstring) (max : Z) :
  Forall (fun c => isDigit c = true \/ c = hyphen) t -> t <> [] ->
  isValidSplit t max = check_parts [t] max.
Proof.
  intros Hch Hne. destruct (digits_hyphen_plain t Hch) as [Hnb Hnc].
  unfold isValidSplit, split_parts.
  rewrite (String_split_no_sep _ _ Hnc). cbn [map]. rewrite (trim_id _ Hnb).
  destruct t; [contradiction | reflexivity].
Qed.

Lemma range_chars (d1 d2 : jsstring) :
  all_digits d1 -> all_digits d2 ->
  Forall (fun c => isDigit c = true \/ c = hyphen) (d1 ++ hyphen :: d2).
Proof.
  intros H1 H2. apply Forall_app. split.
  - eapply Forall_impl; [|exact H1]; auto.
  - constructor; [right; reflexivity|].
    eapply Forall_impl; [|exact H2]; auto.
Qed.

Lemma range_valid (d1 d2 : jsstring) (max : Z) :
  all_digits d1 -> d1 <> [] -> all_digits d2 -> d2 <> [] ->
  (isValidSplit (d1 ++ hyphen :: d2) max = true
   <-> (1 <= parseInt10 d1 /\ parseInt10 d1 <= parseInt10 d2
        /\ parseInt10 d2 <= max)%Z).
Proof.
  intros H1 N1 H2 N2.
  rewrite single_term_valid;
    [|apply range_chars; assumption | destruct d1; discriminate].
  cbn [check_parts].
  rewrite (re_match_complete _ _ _ (term_range d1 d2 N1 H1 N2 H2)).
  rewrite <- bounds_check. destruct (_ || _)%bool; intuition congruence.
Qed.

Lemma page_valid (d : jsstring) (max : Z) :
  all_digits d -> d <> [] ->
  (isValidSplit d max = true
   <-> (1 <= parseInt10 d /\ parseInt10 d <= max)%Z).
Proof.
  intros H N.
  rewrite single_term_valid; [|eapply Forall_impl; [|exact H]; auto | exact N].
  cbn [check_parts].
  rewrite (re_match_complete _ _ _ (term_page d N H)).
  pose proof (bounds_check (parseInt10 d) (parseInt10 d) max) as Hb.
  destruct (_ || _)%bool; split; intros Hx; try discriminate; try reflexivity.
  - assert (false = true -> False) by discriminate.
    exfalso. assert (E : true = false) by (apply Hb; lia). discriminate.
  - assert (E : (1 <= parseInt10 d /\ parseInt10 d <= parseInt10 d
                 /\ parseInt10 d <= max)%Z) by (apply Hb; reflexivity).
    lia.
Qed.

(** X6: for numbers [a] and [b] (integers that a number can hold, as every
    integer below 2^53 is) below 10^21, written as the template literal
    prints them, the page [a] is a valid selection exactly when
    [1 <= a <= max], and the range from [a] to [b] exactly when
    [1 <= a <= b <= max]. *)
Theorem numeral_terms_valid (a b max : Z) :
  is_double a -> is_double b ->
  (0 <= a < ten21)%Z -> (0 <= b < ten21)%Z ->
  (isValidSplit (Number_toString a) max = true <-> (1 <= a <= max)%Z)
  /\ (isValidSplit (Number_toString a ++ hyphen :: Number_toString b) max
      = true
      <-> (1 <= a /\ a <= b /\ b <= max)%Z).
Proof.
  intros Da' Db' Ha Hb.
  destruct (Number_toString_nonneg a Da' Ha) as (Da & Na & Va).
  destruct (Number_toString_nonneg b Db' Hb) as (Db & Nb & Vb).
  split.
  - rewrite (page_valid _ max Da Na), Va. reflexivity.
  - rewrite (range_valid _ _ max Da Na Db Nb), Va, Vb. reflexivity.
Qed.

Lemma numeral_terms_valid_witness :
  is_double 3 /\ is_double 7 /\ (0 <= 3 < ten21)%Z /\ (0 <= 7 < ten21)%Z
  /\ (isValidSplit (Number_toString 3 ++ hyphen :: Number_toString 7) 10
      = true
      <-> (1 <= 3 /\ 3 <= 7 /\ 7 <= 10)%Z).
Proof.
  assert (D3 : is_double 3) by reflexivity.
  assert (D7 : is_double 7) by reflexivity.
  assert (H3 : (0 <= 3 < ten21)%Z) by (unfold ten21; lia).
  assert (H7 : (0 <= 7 < ten21)%Z) by (unfold ten21; lia).
  split; [exact D3|]. split; [exact D7|]. split; [exact H3|].
  split; [exact H7|].
  exact (proj2 (numeral_terms_valid 3 7 10 D3 D7 H3 H7)).
Defined.

(** A valid selection has no letter in it. *)
Lemma valid_units (e : jsstring) (max : Z) :
  isValidSplit e max = true -> Forall selection_unit e.
Proof.
  intros H. apply isValidSplit_true in H. destruct H as [_ Hall].
  apply split_parts_forall in Hall.
  apply Forall_forall. intros c Hc. unfold selection_unit.
  destruct (N.eqb_spec c comma) as [->|Hne]; [auto|].
  destruct (String_split_cover comma e c Hc Hne) as (t & Ht & Hct).
  destruct (trim_decompose t) as (ws1 & ws2 & H1 & H2 & E).
  rewrite E in Hct. apply in_app_or in Hct. destruct Hct as [Hw|Hct].
  - unfold all_blank in H1. rewrite Forall_forall in H1. auto.
  - apply in_app_or in Hct. destruct Hct as [Hm|Hw].
    + assert (Hn : trim t <> [])
        by (intros Hn; rewrite Hn in Hm; destruct Hm).
      destruct (Hall t Ht Hn) as (d1 & o & Hmt & _).
      pose proof (matches_term_chars _ _ _ Hmt) as Hch.
      rewrite Forall_forall in Hch. destruct (Hch c Hm); auto.
    + unfold all_blank in H2. rewrite Forall_forall in H2. auto.
Qed.

Lemma letter_invalid (e : jsstring) (c : code_unit) (max : Z) :
  In c e -> ~ selection_unit c -> isValidSplit e max = false.
Proof.
  intros Hin Hno. destruct (isValidSplit e max) eqn:E; [|reflexivity].
  apply valid_units in E. rewrite Forall_forall in E.
  exfalso. exact (Hno (E c Hin)).
Qed.

Lemma not_unit_e : ~ selection_unit 101%N.
Proof. intros [H|[H|[H|H]]]; discriminate H. Qed.

Lemma not_unit_I : ~ selection_unit 73%N.
Proof. intros [H|[H|[H|H]]]; discriminate H. Qed.

(** The default selection of a page count below one, or from 10^21 on, is
    invalid whatever the bound. *)
Lemma defaultSplitForPages_invalid (pages max : Z) :
  (pages < 1 \/ ten21 <= pages)%Z ->
  isValidSplit (defaultSplitForPages pages) max = false.
Proof.
  intros Hout. unfold defaultSplitForPages.
  destruct pages as [|p|p].
  - cbn. destruct max; reflexivity.
  - destruct Hout as [H|H]; [lia|]. cbn [Number_toString].
    destruct (Number_toString_pos_forms (Zpos p) ltac:(lia))
      as [(_ & _ & Hlt)|[[Hin _]|[Hin _]]]; [lia| |].
    + apply (letter_invalid _ 101%N); [|exact not_unit_e].
      apply in_or_app. right; exact Hin.
    + apply (letter_invalid _ 73%N); [|exact not_unit_I].
      apply in_or_app. right; exact Hin.
  - cbn [Number_toString].
    destruct (Number_toString_pos_forms (Zpos p) ltac:(lia))
      as [(Hd & Hne & _)|[[Hin _]|[Hin _]]].
    + change (lit "1-" ++ hyphen :: Number_toString_pos (Zpos p))
        with (49%N :: hyphen :: hyphen :: Number_toString_pos (Zpos p)).
      rewrite single_term_valid.
      * reflexivity.
      * constructor; [left; reflexivity|].
        constructor; [right; reflexivity|].
        constructor; [right; reflexivity|].
        eapply Forall_impl; [|exact Hd]. auto.
      * discriminate.
    + apply (letter_invalid _ 101%N); [|exact not_unit_e].
      apply in_or_app. right; right; exact Hin.
    + apply (letter_invalid _ 73%N); [|exact not_unit_I].
      apply in_or_app. right; right; exact Hin.
Qed.

Lemma defaultSplitForPages_iff (pages : Z) :
  is_double pages ->
  (isValidSplit (defaultSplitForPages pages) pages = true
   <-> (1 <= pages < ten21)%Z).
Proof.
  intros Hd. split.
  - intros H.
    destruct (Z_lt_le_dec pages 1) as [Hlo|Hlo];
      [rewrite defaultSplitForPages_invalid in H by (left; exact Hlo);
       discriminate H|].
    destruct (Z_lt_le_dec pages ten21) as [Hhi|Hhi]; [lia|].
    rewrite defaultSplitForPages_invalid in H by (right; exact Hhi).
    discriminate H.
  - intros Hp.
    destruct (Number_toString_numeral pages Hd Hp) as (D & N & _ & V).
    change (defaultSplitForPages pages)
      with ([49%N] ++ hyphen :: Number_toString pages).
    rewrite (range_valid [49%N] _ pages ltac:(repeat constructor)
               ltac:(discriminate) D N), V.
    change (parseInt10 [49%N]) with 1%Z. lia.
Qed.

(** X7: for a page count that a number can hold, the default selection is
    valid for that page count exactly when [1 <= pages < 10^21]: for a
    document reported with no pages, or a negative number of pages, it is
    invalid, and so it is from 10^21 on, where the template literal prints
    the exponent form. *)
Theorem defaultSplitForPages_valid_iff (pages : Z) :
  is_double pages ->
  (isValidSplit (defaultSplitForPages pages) pages = true
   <-> (1 <= pages < ten21)%Z).
Proof. apply defaultSplitForPages_iff. Qed.

Lemma defaultSplitForPages_valid_iff_witness :
  is_double 0
  /\ (isValidSplit (defaultSplitForPages 0) 0 = true
      <-> (1 <= 0 < ten21)%Z).
Proof.
  assert (H : is_double 0) by reflexivity.
  split; [exact H|]. exact (defaultSplitForPages_valid_iff 0 H).
Defined.

(** X8: the pattern of a term matches exactly the strings made of a run of
    at least one digit, or of two such runs with one hyphen between them, and
    it captures the first run and, when there is one, the second. *)
Theorem re_match_exact (p d1 : jsstring) (o : option jsstring) :
  re_match p = Some (d1, o)
  <-> (d1 <> [] /\ all_digits d1
       /\ match o with
          | None => p = d1
          | Some d2 => d2 <> [] /\ all_digits d2 /\ p = d1 ++ hyphen :: d2
          end).
Proof.
  split.
  - intros H. apply re_match_sound in H.
    destruct H as [d Hn Hd | a b Ha Da Hb Db]; repeat split; assumption.
  - intros (Hn & Hd & Ho). apply re_match_complete. destruct o as [d2|].
    + destruct Ho as (Hn2 & Hd2 & ->). constructor; assumption.
    + subst p. constructor; assumption.
Qed.

(** ** More on the rows *)

Lemma canGenerate_forall (rows : list Row) :
  canGenerate rows = true <-> rows <> [] /\ Forall row_valid rows.
Proof.
  unfold canGenerate, row_valid.
  rewrite andb_true_iff, forallb_forall, Forall_forall, Z.ltb_lt.
  destruct rows as [|r rows]; simpl List.length.
  - split; [intros [H _]; lia | intros [H _]; contradiction].
  - split; intros [_ H]; (split; [|exact H]); [discriminate | lia].
Qed.

Lemma jsstring_eq_dec (a b : jsstring) : {a = b} + {a <> b}.
Proof. apply list_eq_dec. apply N.eq_dec. Defined.

Lemma filter_keep_all {A : Type} (f : A -> bool) (l : list A) :
  (forall x, In x l -> f x = true) -> filter f l = l.
Proof.
  induction l as [|x l IH]; intros H; simpl; [reflexivity|].
  rewrite (H x (or_introl eq_refl)). rewrite IH; [reflexivity|].
  intros y Hy. apply H. right; exact Hy.
Qed.

Lemma deleteRow_absent (k : jsstring) (rows : list Row) :
  ~ In k (map key rows) -> deleteRow k rows = rows.
Proof.
  intros H. apply filter_keep_all. intros r Hr.
  apply negb_true_iff, str_eqb_neq. intros E. apply H.
  rewrite <- E. apply in_map; exact Hr.
Qed.

Lemma deleteRow_In (k : jsstring) (rows : list Row) (r : Row) :
  In r (deleteRow k rows) <-> In r rows /\ key r <> k.
Proof.
  unfold deleteRow. rewrite filter_In, negb_true_iff, str_eqb_neq.
  reflexivity.
Qed.

Lemma deleteRow_app (k : jsstring) (l1 l2 : list Row) :
  deleteRow k (l1 ++ l2) = deleteRow k l1 ++ deleteRow k l2.
Proof. apply filter_app. Qed.

Lemma deleteRow_key_gone (k : jsstring) (rows : list Row) :
  ~ In k (map key (deleteRow k rows)).
Proof.
  intros H. apply in_map_iff in H. destruct H as (r & Hk & Hr).
  apply deleteRow_In in Hr. tauto.
Qed.

Lemma NoDup_map_filter {A B : Type} (g : A -> B) (f : A -> bool)
    (l : list A) :
  NoDup (map g l) -> NoDup (map g (filter f l)).
Proof.
  induction l as [|x l IH]; simpl; intros H; [constructor|].
  inversion H as [|? ? Hx Hl]; subst.
  destruct (f x); [|apply IH; exact Hl].
  simpl. constructor; [|apply IH; exact Hl].
  intros Hin. apply Hx. apply in_map_iff in Hin.
  destruct Hin as (y & Hy & Hf). apply filter_In in Hf.
  apply in_map_iff. exists y. tauto.
Qed.

(** X9: [deleteRow] takes out the rows with the key and nothing else: a row
    is left exactly when it was there with another key, the key is gone
    afterwards, deleting again or deleting a key that no row has changes
    nothing, distinct keys stay distinct, and with distinct keys the result
    is the collection without the one row that had the key. *)
Theorem deleteRow_spec (k : jsstring) (rows : list Row) :
  (forall r, In r (deleteRow k rows) <-> In r rows /\ key r <> k)
  /\ ~ In k (map key (deleteRow k rows))
  /\ deleteRow k (deleteRow k rows) = deleteRow k rows
  /\ (~ In k (map key rows) -> deleteRow k rows = rows)
  /\ (NoDup (map key rows) -> NoDup (map key (deleteRow k rows)))
  /\ (forall i r, NoDup (map key rows) -> nth_error rows i = Some r ->
        key r = k -> deleteRow k rows = remove_at i rows).
Proof.
  split; [apply deleteRow_In|]. split; [apply deleteRow_key_gone|].
  split; [apply deleteRow_absent, deleteRow_key_gone|].
  split; [apply deleteRow_absent|].
  split; [apply NoDup_map_filter|].
  intros i r Hnd Hi Hk.
  destruct (nth_error_split rows i Hi) as (l1 & l2 & -> & <-).
  rewrite map_app in Hnd. simpl in Hnd. rewrite Hk in Hnd.
  apply NoDup_remove_2 in Hnd.
  rewrite <- (Nat.add_0_r (List.length l1)), remove_at_length_app.
  rewrite deleteRow_app. cbn [remove_at].
  change (r :: l2) with ([r] ++ l2). rewrite deleteRow_app.
  rewrite (deleteRow_absent k l1), (deleteRow_absent k l2).
  - unfold deleteRow. simpl. rewrite Hk, str_eqb_refl. reflexivity.
  - intros H. apply Hnd. apply in_or_app. right; exact H.
  - intros H. apply Hnd. apply in_or_app. left; exact H.
Qed.

Lemma deleteRow_spec_witness :
  NoDup (map key [sample_row "a" "1"; sample_row "b" "2-3";
                  sample_row "c" "4"])
  /\ deleteRow (lit "b") [sample_row "a" "1"; sample_row "b" "2-3";
                          sample_row "c" "4"]
     = remove_at 1 [sample_row "a" "1"; sample_row "b" "2-3";
                    sample_row "c" "4"].
Proof.
  split; [exact sample_keys_distinct|].
  exact (proj2 (proj2 (proj2 (proj2 (proj2
           (deleteRow_spec (lit "b")
              [sample_row "a" "1"; sample_row "b" "2-3";
               sample_row "c" "4"])))))
           1%nat (sample_row "b" "2-3") sample_keys_distinct eq_refl eq_refl).
Defined.

Lemma first_with_key (k : jsstring) (rows : list Row) :
  In k (map key rows) ->
  exists l1 r l2, rows = l1 ++ r :: l2 /\ ~ In k (map key l1) /\ key r = k.
Proof.
  induction rows as [|x rows IH]; intros H; [destruct H|].
  destruct (jsstring_eq_dec (key x) k) as [E|Hne].
  - exists [], x, rows. split; [reflexivity|]. split; [intros []|exact E].
  - destruct H as [H|H]; [contradiction|].
    destruct (IH H) as (l1 & r & l2 & -> & Hl1 & Hr).
    exists (x :: l1), r, l2. split; [reflexivity|]. split; [|exact Hr].
    intros [Hx|Hx]; [contradiction | exact (Hl1 Hx)].
Qed.

(** What [duplicateRow] returns, whatever the collection. *)
Lemma duplicateRow_cases (uuid k : jsstring) (rows : list Row) :
  (~ In k (map key rows) /\ duplicateRow uuid k rows = rows)
  \/ (exists l1 r l2,
        rows = l1 ++ r :: l2 /\ ~ In k (map key l1) /\ key r = k
        /\ duplicateRow uuid k rows = l1 ++ r :: with_key r uuid :: l2).
Proof.
  destruct (in_dec jsstring_eq_dec k (map key rows)) as [Hin|Hout].
  - right. destruct (first_with_key k rows Hin) as (l1 & r & l2 & -> & H1 & Hr).
    exists l1, r, l2. repeat split; try assumption.
    apply duplicateRow_found; assumption.
  - left. split; [exact Hout | apply duplicateRow_absent; exact Hout].
Qed.

(** X10: deleting the copy that [duplicateRow] has just made, under its
    fresh key, gives the collection back. *)
Theorem deleteRow_duplicateRow (uuid k : jsstring) (rows : list Row) :
  ~ In uuid (map key rows) ->
  deleteRow uuid (duplicateRow uuid k rows) = rows.
Proof.
  intros Hfresh.
  destruct (duplicateRow_cases uuid k rows)
    as [[_ ->]|(l1 & r & l2 & E & _ & _ & ->)].
  - apply deleteRow_absent; exact Hfresh.
  - subst rows. rewrite map_app in Hfresh. simpl in Hfresh.
    rewrite deleteRow_app.
    change (r :: with_key r uuid :: l2)
      with ([r] ++ [with_key r uuid] ++ l2).
    rewrite !deleteRow_app.
    rewrite (deleteRow_absent uuid l1), (deleteRow_absent uuid [r]),
      (deleteRow_absent uuid l2).
    + unfold deleteRow. simpl. rewrite str_eqb_refl. reflexivity.
    + intros H. apply Hfresh. apply in_or_app. right; right; exact H.
    + intros [H|[]]. apply Hfresh. apply in_or_app. right; left; exact H.
    + intros H. apply Hfresh. apply in_or_app. left; exact H.
Qed.

Lemma deleteRow_duplicateRow_witness :
  ~ In (lit "d") (map key [sample_row "a" "1"; sample_row "b" "2-3"])
  /\ deleteRow (lit "d")
       (duplicateRow (lit "d") (lit "a")
          [sample_row "a" "1"; sample_row "b" "2-3"])
     = [sample_row "a" "1"; sample_row "b" "2-3"].
Proof.
  assert (H : ~ In (lit "d")
                (map key [sample_row "a" "1"; sample_row "b" "2-3"]))
    by (vm_compute; intuition discriminate).
  split; [exact H|].
  exact (deleteRow_duplicateRow (lit "d") (lit "a")
           [sample_row "a" "1"; sample_row "b" "2-3"] H).
Defined.

Lemma canGenerate_app_cons (l1 l2 : list Row) (r : Row) :
  canGenerate (l1 ++ r :: l2)
  = forallb (fun r => isValidSplit (split r) (pages r)) (l1 ++ r :: l2).
Proof.
  unfold canGenerate. rewrite length_app. simpl List.length.
  replace (0 <? Z.of_nat (List.length l1 + S (List.length l2)))%Z with true;
    [reflexivity|].
  symmetry. apply Z.ltb_lt. lia.
Qed.

(** X11: [duplicateRow] never changes whether the merge can be generated:
    the copy has the selection and the page count of its source. *)
Theorem canGenerate_duplicateRow (uuid k : jsstring) (rows : list Row) :
  canGenerate (duplicateRow uuid k rows) = canGenerate rows.
Proof.
  destruct (duplicateRow_cases uuid k rows)
    as [[_ ->]|(l1 & r & l2 & -> & _ & _ & ->)]; [reflexivity|].
  rewrite !canGenerate_app_cons, !forallb_app. cbn [forallb with_key split pages].
  destruct (isValidSplit (split r) (pages r)); reflexivity.
Qed.

Lemma with_split_same (r : Row) : with_split r (split r) = r.
Proof. destruct r; reflexivity. Qed.

(** X12: of two edits of the same row the last one wins, edits of rows with
    different keys can be made in either order, and an edit for a key that no
    row has changes nothing. *)
Theorem updateSplit_compose (k k' s s' : jsstring) (rows : list Row) :
  updateSplit k s' (updateSplit k s rows) = updateSplit k s' rows
  /\ (k <> k' ->
      updateSplit k s (updateSplit k' s' rows)
      = updateSplit k' s' (updateSplit k s rows))
  /\ (~ In k (map key rows) -> updateSplit k s rows = rows).
Proof.
  unfold updateSplit. repeat split.
  - rewrite map_map. apply map_ext. intros r.
    destruct (str_eqb (key r) k) eqn:E; cbn [key with_split]; rewrite E;
      reflexivity.
  - intros Hne. rewrite !map_map. apply map_ext. intros r.
    destruct (str_eqb (key r) k) eqn:E, (str_eqb (key r) k') eqn:E';
      cbn [key with_split]; rewrite ?E, ?E'; try reflexivity.
    apply str_eqb_eq in E, E'. congruence.
  - intros Hout. rewrite <- (map_id rows) at 2. apply map_ext_in.
    intros r Hr. destruct (str_eqb (key r) k) eqn:E; [|reflexivity].
    apply str_eqb_eq in E. exfalso. apply Hout. rewrite <- E.
    apply in_map; exact Hr.
Qed.

Lemma updateSplit_compose_witness :
  lit "k1" <> lit "k2"
  /\ updateSplit (lit "k1") (lit "3")
       (updateSplit (lit "k2") (lit "4")
          [sample_row "k1" "1"; sample_row "k2" "2"])
     = updateSplit (lit "k2") (lit "4")
         (updateSplit (lit "k1") (lit "3")
            [sample_row "k1" "1"; sample_row "k2" "2"]).
Proof.
  assert (H : lit "k1" <> lit "k2") by (vm_compute; discriminate).
  split; [exact H|].
  exact (proj1 (proj2 (updateSplit_compose (lit "k1") (lit "k2")
                         (lit "3") (lit "4")
                         [sample_row "k1" "1"; sample_row "k2" "2"])) H).
Defined.

(** X13: writing the former selection back undoes an edit: when the rows
    with the key all had the selection [s0], editing them and then setting
    [s0] again gives the collection back. *)
Theorem updateSplit_restore (k s s0 : jsstring) (rows : list Row) :
  (forall r, In r rows -> key r = k -> split r = s0) ->
  updateSplit k s0 (updateSplit k s rows) = rows.
Proof.
  intros H. unfold updateSplit. rewrite map_map.
  rewrite <- (map_id rows) at 2. apply map_ext_in. intros r Hr.
  destruct (str_eqb (key r) k) eqn:E; cbn [key with_split]; rewrite E.
  - apply str_eqb_eq in E. rewrite <- (H r Hr E).
    exact (with_split_same r).
  - reflexivity.
Qed.

Lemma updateSplit_restore_witness :
  (forall r, In r [sample_row "k1" "1-10"; sample_row "k2" "2"] ->
             key r = lit "k1" -> split r = lit "1-10")
  /\ updateSplit (lit "k1") (lit "1-10")
       (updateSplit (lit "k1") (lit "1-")
          [sample_row "k1" "1-10"; sample_row "k2" "2"])
     = [sample_row "k1" "1-10"; sample_row "k2" "2"].
Proof.
  assert (H : forall r,
             In r [sample_row "k1" "1-10"; sample_row "k2" "2"] ->
             key r = lit "k1" -> split r = lit "1-10").
  { intros r [<-|[<-|[]]] Hk; [reflexivity|]. vm_compute in Hk.
    discriminate Hk. }
  split; [exact H|].
  exact (updateSplit_restore (lit "k1") (lit "1-") (lit "1-10")
           [sample_row "k1" "1-10"; sample_row "k2" "2"] H).
Defined.

Lemma updateSplit_In (k s : jsstring) (rows : list Row) (r' : Row) :
  In r' (updateSplit k s rows)
  <-> exists r, In r rows
        /\ r' = (if str_eqb (key r) k then with_split r s else r).
Proof.
  unfold updateSplit. rewrite in_map_iff. split.
  - intros (r & E & Hr). exists r. split; [exact Hr | symmetry; exact E].
  - intros (r & Hr & E). exists r. split; [symmetry; exact E | exact Hr].
Qed.

Lemma updateSplit_nil (k s : jsstring) (rows : list Row) :
  updateSplit k s rows = [] <-> rows = [].
Proof. unfold updateSplit. destruct rows; simpl; split; congruence. Qed.

(** X14: the generate gate follows the edits: an edit that gives a row a
    selection that is invalid for its page count closes the gate, and on a
    collection that can be generated an edit that is valid for every row it
    touches keeps the gate open. *)
Theorem canGenerate_updateSplit (k s : jsstring) (rows : list Row) :
  (forall r, In r rows -> key r = k -> isValidSplit s (pages r) = false ->
     canGenerate (updateSplit k s rows) = false)
  /\ (canGenerate rows = true ->
      (forall r, In r rows -> key r = k -> isValidSplit s (pages r) = true) ->
      canGenerate (updateSplit k s rows) = true).
Proof.
  split.
  - intros r Hr Hk Hbad.
    destruct (canGenerate (updateSplit k s rows)) eqn:E; [|reflexivity].
    apply canGenerate_forall in E. destruct E as [_ E].
    rewrite Forall_forall in E.
    assert (Hin : In (with_split r s) (updateSplit k s rows)).
    { apply updateSplit_In. exists r. split; [exact Hr|].
      apply str_eqb_eq in Hk. rewrite Hk. reflexivity. }
    specialize (E _ Hin). unfold row_valid in E. cbn [with_split split pages] in E.
    congruence.
  - intros Hgen Hok. apply canGenerate_forall in Hgen.
    destruct Hgen as [Hne Hall]. apply canGenerate_forall. split.
    + intros E. apply updateSplit_nil in E. contradiction.
    + rewrite Forall_forall in Hall. apply Forall_forall. intros r' Hr'.
      apply updateSplit_In in Hr'. destruct Hr' as (r & Hr & ->).
      destruct (str_eqb (key r) k) eqn:E.
      * apply str_eqb_eq in E. unfold row_valid. cbn [with_split split pages].
        exact (Hok r Hr E).
      * exact (Hall r Hr).
Qed.

Lemma canGenerate_updateSplit_witness :
  In (sample_row "k1" "1-10") [sample_row "k1" "1-10"]
  /\ isValidSplit (lit "11") (pages (sample_row "k1" "1-10")) = false
  /\ canGenerate (updateSplit (lit "k1") (lit "11") [sample_row "k1" "1-10"])
     = false.
Proof.
  assert (H1 : In (sample_row "k1" "1-10") [sample_row "k1" "1-10"])
    by (left; reflexivity).
  assert (H2 : isValidSplit (lit "11") (pages (sample_row "k1" "1-10"))
               = false) by reflexivity.
  split; [exact H1|]. split; [exact H2|].
  exact (proj1 (canGenerate_updateSplit (lit "k1") (lit "11")
                  [sample_row "k1" "1-10"]) _ H1 eq_refl H2).
Defined.

(** X15: deleting rows keeps the gate open as long as a row is left, and
    deleting the rows with invalid selections opens it: what decides is the
    rows that stay. *)
Theorem canGenerate_deleteRow (k : jsstring) (rows : list Row) :
  (canGenerate rows = true -> deleteRow k rows <> [] ->
   canGenerate (deleteRow k rows) = true)
  /\ (canGenerate (deleteRow k rows) = true
      <-> deleteRow k rows <> []
          /\ forall r, In r rows -> key r <> k -> row_valid r).
Proof.
  assert (Hiff : canGenerate (deleteRow k rows) = true
            <-> deleteRow k rows <> []
                /\ forall r, In r rows -> key r <> k -> row_valid r).
  { rewrite canGenerate_forall, Forall_forall. split; intros [Hne H].
    - split; [exact Hne|]. intros r Hr Hk. apply H. apply deleteRow_In. tauto.
    - split; [exact Hne|]. intros r Hr. apply deleteRow_In in Hr.
      apply H; tauto. }
  split; [|exact Hiff].
  intros Hgen Hne. apply Hiff. split; [exact Hne|].
  apply canGenerate_forall in Hgen. destruct Hgen as [_ Hall].
  rewrite Forall_forall in Hall. intros r Hr _. exact (Hall r Hr).
Qed.

Lemma canGenerate_deleteRow_witness :
  canGenerate [sample_row "a" "1"; sample_row "b" "2-3"] = true
  /\ deleteRow (lit "a") [sample_row "a" "1"; sample_row "b" "2-3"] <> []
  /\ canGenerate (deleteRow (lit "a")
                    [sample_row "a" "1"; sample_row "b" "2-3"]) = true.
Proof.
  assert (H1 : canGenerate [sample_row "a" "1"; sample_row "b" "2-3"] = true)
    by reflexivity.
  assert (H2 : deleteRow (lit "a")
                 [sample_row "a" "1"; sample_row "b" "2-3"] <> [])
    by (vm_compute; discriminate).
  split; [exact H1|]. split; [exact H2|].
  exact (proj1 (canGenerate_deleteRow (lit "a")
                  [sample_row "a" "1"; sample_row "b" "2-3"]) H1 H2).
Defined.

(** ** More on the upload workflow *)

Lemma or_else_not_empty (a : jsstring) (s : string) :
  lit s <> [] -> or_else a (lit s) <> [].
Proof.
  intros H. unfold or_else. destruct a; cbn [truthy]; [exact H | discriminate].
Qed.

(** X16: whatever the network answers, [uploadPDF] returns without throwing,
    sends exactly one request (the file under its name, typed
    [application/pdf]), ends with [uploading] false and leaves [loading] and
    the output name alone; and either it has appended one row (under the new
    key, with the name of the file and the default selection for its page
    count) and cleared the error, or it has left the rows as they were and
    set an error message that is not empty. *)
Theorem uploadPDF_always (net : FetchOutcome) (uuid : jsstring) (file : File)
    (w : World) :
  fst (uploadPDF net uuid file w) = inr tt
  /\ sent (snd (uploadPDF net uuid file w)) = sent w ++ [upload_request file]
  /\ uploading (app (snd (uploadPDF net uuid file w))) = false
  /\ loading (app (snd (uploadPDF net uuid file w))) = loading (app w)
  /\ outputName (app (snd (uploadPDF net uuid file w))) = outputName (app w)
  /\ ((error (app (snd (uploadPDF net uuid file w))) = None
       /\ exists r,
            rows (app (snd (uploadPDF net uuid file w))) = rows (app w) ++ [r]
            /\ key r = uuid /\ name r = file_name file
            /\ split r = defaultSplitForPages (pages r))
      \/ (rows (app (snd (uploadPDF net uuid file w))) = rows (app w)
          /\ exists msg,
               error (app (snd (uploadPDF net uuid file w))) = Some msg
               /\ msg <> [])).
Proof.
  run_handler. unfold upload_request.
  destruct net as [m|res]; cbn [fst snd app sent rows error uploading loading
                                  outputName message].
  - repeat split. right. split; [reflexivity|].
    eexists. split; [reflexivity|]. apply or_else_not_empty. discriminate.
  - destruct (res_ok res); cbn [negb fst snd app sent rows error uploading
                                  loading outputName message].
    + destruct (res_json res) as [m|meta];
        cbn [fst snd app sent rows error uploading loading outputName message].
      * repeat split. right. split; [reflexivity|].
        eexists. split; [reflexivity|]. apply or_else_not_empty. discriminate.
      * repeat split. left. split; [reflexivity|].
        eexists. split; [reflexivity|]. repeat split.
    + repeat split. right. split; [reflexivity|].
      eexists. split; [reflexivity|]. discriminate.
Qed.

Lemma uploadPDF_success_witness :
  res_ok {| res_status := 200;
            res_json := inr {| meta_documentId := lit "doc-1";
                               meta_name := lit "a.pdf";
                               meta_size := 2048; meta_pages := 10 |} |}
  = true
  /\ rows (app (snd (uploadPDF
                       (Responded
                          {| res_status := 200;
                             res_json := inr {| meta_documentId := lit "doc-1";
                                                meta_name := lit "a.pdf";
                                                meta_size := 2048;
                                                meta_pages := 10 |} |})
                       (lit "k1")
                       {| file_name := lit "a.pdf";
                          file_type := application_pdf |}
                       initial)))
     = [sample_row "k1" "1-10"].
Proof.
  split; [reflexivity|].
  exact (proj1 (proj2 (uploadPDF_success
           {| res_status := 200;
              res_json := inr {| meta_documentId := lit "doc-1";
                                 meta_name := lit "a.pdf";
                                 meta_size := 2048; meta_pages := 10 |} |}
           {| meta_documentId := lit "doc-1"; meta_name := lit "a.pdf";
              meta_size := 2048; meta_pages := 10 |}
           (lit "k1")
           {| file_name := lit "a.pdf"; file_type := application_pdf |}
           initial eq_refl eq_refl))).
Defined.

Lemma uploadPDF_success_rows (res : Response) (meta : UploadedDocMeta)
    (uuid : jsstring) (file : File) (w : World) :
  res_ok res = true -> res_json res = inr meta ->
  rows (app (snd (uploadPDF (Responded res) uuid file w)))
  = rows (app w)
    ++ [{| documentId := meta_documentId meta; name := file_name file;
           size := meta_size meta; pages := meta_pages meta; key := uuid;
           split := defaultSplitForPages (meta_pages meta) |}].
Proof.
  intros Hok Hjson. run_handler.
  cbn [fst snd app sent rows error uploading loading outputName].
  rewrite Hok, Hjson. reflexivity.
Qed.

Lemma canGenerate_snoc (rows : list Row) (r : Row) :
  canGenerate (rows ++ [r])
  = forallb (fun r => isValidSplit (split r) (pages r)) rows
    && isValidSplit (split r) (pages r).
Proof.
  rewrite canGenerate_app_cons, forallb_app. cbn [forallb].
  rewrite andb_true_r. reflexivity.
Qed.

(** X17: a successful upload keeps the collection in order: with distinct
    keys and a new key that no row has, the keys stay distinct; when the
    server reports a page count [pages] with [1 <= pages < 10^21], a
    collection that was empty or could be generated can be generated
    afterwards; when it reports no page (or a page count from 10^21 on, which
    the template literal prints in exponent form), the merge cannot be
    generated afterwards. *)
Theorem uploadPDF_success_invariants (res : Response) (meta : UploadedDocMeta)
    (uuid : jsstring) (file : File) (w : World) :
  res_ok res = true -> res_json res = inr meta ->
  (NoDup (map key (rows (app w))) -> ~ In uuid (map key (rows (app w))) ->
   NoDup (map key (rows (app (snd (uploadPDF (Responded res) uuid file w))))))
  /\ (is_double (meta_pages meta) -> (1 <= meta_pages meta < ten21)%Z ->
      rows (app w) = [] \/ canGenerate (rows (app w)) = true ->
      canGenerate (rows (app (snd (uploadPDF (Responded res) uuid file w))))
      = true)
  /\ ((meta_pages meta < 1 \/ ten21 <= meta_pages meta)%Z ->
      canGenerate (rows (app (snd (uploadPDF (Responded res) uuid file w))))
      = false).
Proof.
  intros Hok Hjson.
  rewrite (uploadPDF_success_rows res meta uuid file w Hok Hjson).
  repeat split.
  - intros Hnd Hfresh. rewrite map_app. cbn [map key].
    apply NoDup_insert; rewrite app_nil_r; assumption.
  - intros Hd Hp Hprev. rewrite canGenerate_snoc. cbn [split pages].
    rewrite (proj2 (defaultSplitForPages_iff (meta_pages meta) Hd) Hp).
    rewrite andb_true_r. destruct Hprev as [->|Hgen]; [reflexivity|].
    unfold canGenerate in Hgen. apply andb_true_iff in Hgen. tauto.
  - intros Hp. rewrite canGenerate_snoc. cbn [split pages].
    rewrite (defaultSplitForPages_invalid _ _ Hp). apply andb_false_r.
Qed.

Lemma uploadPDF_success_invariants_witness :
  res_ok {| res_status := 200;
            res_json := inr {| meta_documentId := lit "doc-0";
                               meta_name := lit "empty.pdf";
                               meta_size := 300; meta_pages := 0 |} |}
  = true
  /\ (0 < 1 \/ ten21 <= 0)%Z
  /\ canGenerate
       (rows (app (snd (uploadPDF
                          (Responded
                             {| res_status := 200;
                                res_json :=
                                  inr {| meta_documentId := lit "doc-0";
                                         meta_name := lit "empty.pdf";
                                         meta_size := 300;
                                         meta_pages := 0 |} |})
                          (lit "k1")
                          {| file_name := lit "empty.pdf";
                             file_type := application_pdf |}
                          initial))))
     = false.
Proof.
  assert (H : (0 < 1 \/ ten21 <= 0)%Z) by (left; lia).
  split; [reflexivity|]. split; [exact H|].
  exact (proj2 (proj2 (uploadPDF_success_invariants
           {| res_status := 200;
              res_json := inr {| meta_documentId := lit "doc-0";
                                 meta_name := lit "empty.pdf";
                                 meta_size := 300; meta_pages := 0 |} |}
           {| meta_documentId := lit "doc-0"; meta_name := lit "empty.pdf";
              meta_size := 300; meta_pages := 0 |}
           (lit "k1")
           {| file_name := lit "empty.pdf"; file_type := application_pdf |}
           initial eq_refl eq_refl)) H).
Defined.

Lemma uploadPDF_at_most_one (net : FetchOutcome) (uuid : jsstring)
    (file : File) (w : World) :
  at_most_one_upload (uploadPDF net uuid file) w.
Proof.
  run_handler. unfold at_most_one_upload, upload_request.
  destruct net as [m|res]; cbn [fst snd app sent rows].
  - split; [right; eexists; reflexivity | lia].
  - destruct (res_ok res); cbn [negb fst snd app sent rows].
    + destruct (res_json res) as [m|meta]; cbn [fst snd app sent rows].
      * split; [right; eexists; reflexivity | lia].
      * split; [right; eexists; reflexivity|].
        rewrite length_app. simpl. lia.
    + split; [right; eexists; reflexivity | lia].
Qed.

Lemma uploadPDF_returns (net : FetchOutcome) (uuid : jsstring) (file : File)
    (w : World) :
  fst (uploadPDF net uuid file w) = inr tt.
Proof.
  run_handler.
  destruct net as [m|res]; cbn [fst snd]; [reflexivity|].
  destruct (res_ok res); cbn [negb fst snd]; [|reflexivity].
  destruct (res_json res); reflexivity.
Qed.

Lemma ret_at_most_one (w : World) : at_most_one_upload (ret tt) w.
Proof.
  unfold at_most_one_upload, ret. cbn [fst snd].
  split; [left; reflexivity | lia].
Qed.

(** After the upload, the last statement of [onFileChange] throws. *)
Lemma onFileChange_throws (net : FetchOutcome) (uuid : jsstring) (f : File)
    (rest : list File) (w : World) :
  onFileChange net uuid (f :: rest) w
  = (inl currentTarget_null_error, snd (uploadPDF net uuid f w)).
Proof.
  unfold onFileChange. cbn [hd_error]. unfold bind at 1.
  pose proof (uploadPDF_returns net uuid f w) as H.
  destruct (uploadPDF net uuid f w) as [r w']. cbn [fst snd] in *.
  subst r. reflexivity.
Qed.

(** X18: one drop, one paste or one choice in the file picker starts at most
    one upload: the handler sends no request or exactly one upload request,
    and the collection grows by at most one row.  [onDrop] and [onPaste]
    return without throwing; [onFileChange] returns without throwing exactly
    when no file was chosen. *)
Theorem intake_at_most_one_upload (net : FetchOutcome) (uuid : jsstring)
    (files : list File) (items : list ClipboardItem) (w : World) :
  (at_most_one_upload (onDrop net uuid files) w
   /\ fst (onDrop net uuid files w) = inr tt)
  /\ (at_most_one_upload (onPaste net uuid items) w
      /\ fst (onPaste net uuid items w) = inr tt)
  /\ (at_most_one_upload (onFileChange net uuid files) w
      /\ (fst (onFileChange net uuid files w) = inr tt <-> files = [])).
Proof.
  split; [|split].
  - unfold onDrop. destruct (hd_error files) as [f|];
      [|split; [apply ret_at_most_one | reflexivity]].
    destruct (str_eqb (file_type f) application_pdf);
      [split; [apply uploadPDF_at_most_one | apply uploadPDF_returns]
      |split; [apply ret_at_most_one | reflexivity]].
  - unfold onPaste. destruct (find _ items) as [item|];
      [|split; [apply ret_at_most_one | reflexivity]].
    destruct (getAsFile item);
      [split; [apply uploadPDF_at_most_one | apply uploadPDF_returns]
      |split; [apply ret_at_most_one | reflexivity]].
  - destruct files as [|f rest].
    + split; [apply ret_at_most_one|]. split; reflexivity.
    + pose proof (uploadPDF_at_most_one net uuid f w) as H.
      unfold at_most_one_upload in *.
      rewrite onFileChange_throws. cbn [fst snd].
      split; [exact H|]. split; discriminate.
Qed.

(** X19: only the first file of a drop or of a choice counts.  The picker
    uploads it whatever its type, with the state and the request of
    [uploadPDF], and then throws at its last statement; a drop uploads it
    when its type is [application/pdf] and otherwise uploads nothing, also
    when a later file is a PDF. *)
Theorem intake_first_file_only (net : FetchOutcome) (uuid : jsstring)
    (f : File) (rest : list File) (w : World) :
  onFileChange net uuid (f :: rest) w
  = (inl currentTarget_null_error, snd (uploadPDF net uuid f w))
  /\ sent (snd (onFileChange net uuid (f :: rest) w))
     = sent w ++ [upload_request f]
  /\ (file_type f = application_pdf ->
      onDrop net uuid (f :: rest) w = uploadPDF net uuid f w)
  /\ (file_type f <> application_pdf ->
      sent (snd (onDrop net uuid (f :: rest) w)) = sent w
      /\ rows (app (snd (onDrop net uuid (f :: rest) w))) = rows (app w)).
Proof.
  split; [apply onFileChange_throws|]. split.
  - rewrite onFileChange_throws. cbn [snd]. run_handler.
    unfold upload_request.
    destruct net as [m|res]; cbn [fst snd app sent]; [reflexivity|].
    destruct (res_ok res); cbn [negb fst snd app sent]; [|reflexivity].
    destruct (res_json res); reflexivity.
  - split.
    + intros Hty. unfold onDrop. cbn [hd_error].
      apply str_eqb_eq in Hty. rewrite Hty. reflexivity.
    + intros Hty. unfold onDrop. cbn [hd_error].
      apply str_eqb_neq in Hty. rewrite Hty. split; reflexivity.
Qed.

Lemma intake_first_file_only_witness :
  file_type {| file_name := lit "notes.txt"; file_type := lit "text/plain" |}
  <> application_pdf
  /\ sent (snd (onDrop (NetworkError []) (lit "k1")
                  [{| file_name := lit "notes.txt";
                      file_type := lit "text/plain" |};
                   {| file_name := lit "a.pdf";
                      file_type := application_pdf |}]
                  initial))
     = sent initial.
Proof.
  assert (H : file_type {| file_name := lit "notes.txt";
                           file_type := lit "text/plain" |}
              <> application_pdf) by (vm_compute; discriminate).
  split; [exact H|].
  exact (proj1 (proj2 (proj2 (proj2
           (intake_first_file_only (NetworkError []) (lit "k1")
              {| file_name := lit "notes.txt"; file_type := lit "text/plain" |}
              [{| file_name := lit "a.pdf"; file_type := application_pdf |}]
              initial))) H)).
Defined.

Lemma find_first {A : Type} (f : A -> bool) (pre post : list A) (x : A) :
  Forall (fun y => f y = false) pre -> f x = true ->
  find f (pre ++ x :: post) = Some x.
Proof.
  intros H Hx. induction H as [|y l Hy _ IH]; simpl.
  - rewrite Hx. reflexivity.
  - rewrite Hy. exact IH.
Qed.

(** X20: a paste uploads the file of the first clipboard item of type
    [application/pdf], whatever stands before it; when that item gives no
    file, nothing is uploaded, also when a later item is a PDF with a
    file. *)
Theorem onPaste_first_pdf_item (net : FetchOutcome) (uuid : jsstring)
    (pre post : list ClipboardItem) (item : ClipboardItem) (w : World) :
  (forall i, In i pre -> item_type i <> application_pdf) ->
  item_type item = application_pdf ->
  onPaste net uuid (pre ++ item :: post) w
  = match getAsFile item with
    | Some file => uploadPDF net uuid file w
    | None => (inr tt, w)
    end.
Proof.
  intros Hpre Hitem. unfold onPaste.
  rewrite (find_first _ pre post item).
  - destruct (getAsFile item); reflexivity.
  - apply Forall_forall. intros i Hi. apply str_eqb_neq. exact (Hpre i Hi).
  - apply str_eqb_eq. exact Hitem.
Qed.

Lemma onPaste_first_pdf_item_witness :
  (forall i, In i [{| item_type := lit "text/plain"; getAsFile := None |}] ->
             item_type i <> application_pdf)
  /\ onPaste (NetworkError []) (lit "k1")
       ([{| item_type := lit "text/plain"; getAsFile := None |}]
        ++ {| item_type := application_pdf; getAsFile := None |}
           :: [{| item_type := application_pdf;
                  getAsFile := Some {| file_name := lit "a.pdf";
                                       file_type := application_pdf |} |}])
       initial
     = (inr tt, initial).
Proof.
  assert (H : forall i,
             In i [{| item_type := lit "text/plain"; getAsFile := None |}] ->
             item_type i <> application_pdf).
  { intros i [<-|[]]. vm_compute. discriminate. }
  split; [exact H|].
  exact (onPaste_first_pdf_item (NetworkError []) (lit "k1")
           [{| item_type := lit "text/plain"; getAsFile := None |}]
           [{| item_type := application_pdf;
               getAsFile := Some {| file_name := lit "a.pdf";
                                    file_type := application_pdf |} |}]
           {| item_type := application_pdf; getAsFile := None |}
           initial H eq_refl).
Defined.

(** ** Generating *)

Ltac run_generate :=
  unfold generate, get_state, res_blob, bind, try_finally, try_catch,
    setError, setLoading, modify, fetch, throw, ret.

(** X21: while the merge cannot be generated, [generate] does nothing: no
    request, no download, no change of the state. *)
Theorem generate_not_ready (net : FetchOutcome) (blob : jsstring + Blob)
    (w : World) :
  canGenerate (rows (app w)) = false -> generate net blob w = (inr None, w).
Proof.
  intros H. run_generate. rewrite H. reflexivity.
Qed.

Lemma generate_not_ready_witness :
  canGenerate (rows (app initial)) = false
  /\ generate (NetworkError []) (inr []) initial = (inr None, initial).
Proof.
  assert (H : canGenerate (rows (app initial)) = false) by reflexivity.
  split; [exact H|].
  exact (generate_not_ready (NetworkError []) (inr []) initial H).
Defined.

(** X22: when the merge can be generated, [generate] returns without
    throwing, whatever the network answers; it has sent exactly one request,
    with the documents and selections of the rows in their order and the
    output name (["merged.pdf"] when the name is empty); it ends with
    [loading] false and leaves the rows, [uploading] and the output name
    alone. *)
Theorem generate_request (net : FetchOutcome) (blob : jsstring + Blob)
    (w : World) :
  canGenerate (rows (app w)) = true ->
  (exists d, fst (generate net blob w) = inr d)
  /\ sent (snd (generate net blob w)) = sent w ++ [split_request (app w)]
  /\ rows (app (snd (generate net blob w))) = rows (app w)
  /\ loading (app (snd (generate net blob w))) = false
  /\ uploading (app (snd (generate net blob w))) = uploading (app w)
  /\ outputName (app (snd (generate net blob w))) = outputName (app w).
Proof.
  intros H. run_generate. unfold split_request. rewrite H.
  cbn [negb fst snd app sent rows error uploading loading outputName].
  destruct net as [m|res];
    cbn [fst snd app sent rows error uploading loading outputName].
  - repeat split. eexists; reflexivity.
  - destruct (res_ok res);
      cbn [negb fst snd app sent rows error uploading loading outputName].
    + destruct blob as [m|b];
        cbn [fst snd app sent rows error uploading loading outputName];
        repeat split; eexists; reflexivity.
    + repeat split. eexists; reflexivity.
Qed.

Lemma generate_request_witness :
  canGenerate (rows (app sample_world)) = true
  /\ sent (snd (generate (NetworkError []) (inr []) sample_world))
     = [PostSplit (lit "merged.pdf") [(lit "doc-1", lit "1-10,5")]].
Proof.
  assert (H : canGenerate (rows (app sample_world)) = true) by reflexivity.
  split; [exact H|].
  exact (proj1 (proj2 (generate_request (NetworkError []) (inr [])
                         sample_world H))).
Defined.

(** X23: when the merge can be generated and the split succeeds, [generate]
    starts one download, of the body of the response, under the file name it
    sent in the request, and leaves [error] empty. *)
Theorem generate_success (res : Response) (b : Blob) (w : World) :
  canGenerate (rows (app w)) = true -> res_ok res = true ->
  fst (generate (Responded res) (inr b) w)
  = inr (Some {| download_blob := b;
                 download := or_else (outputName (app w))
                               (lit "merged.pdf") |})
  /\ error (app (snd (generate (Responded res) (inr b) w))) = None.
Proof.
  intros H Hok. run_generate. rewrite H.
  cbn [negb fst snd app sent rows error uploading loading outputName].
  rewrite Hok. repeat split.
Qed.

Lemma generate_success_witness :
  canGenerate (rows (app sample_world)) = true
  /\ res_ok {| res_status := 200; res_json := inl [] |} = true
  /\ fst (generate (Responded {| res_status := 200; res_json := inl [] |})
            (inr [37%N; 80%N; 68%N; 70%N]) sample_world)
     = inr (Some {| download_blob := [37%N; 80%N; 68%N; 70%N];
                    download := lit "merged.pdf" |}).
Proof.
  assert (H : canGenerate (rows (app sample_world)) = true) by reflexivity.
  assert (Hok : res_ok {| res_status := 200; res_json := inl [] |} = true)
    by reflexivity.
  split; [exact H|]. split; [exact Hok|].
  exact (proj1 (generate_success {| res_status := 200; res_json := inl [] |}
                  [37%N; 80%N; 68%N; 70%N] sample_world H Hok)).
Defined.

(** X24: when the merge can be generated and the split fails (the network
    is unreachable, the response is not a success, or its body cannot be
    read), [generate] starts no download and sets an error message that is
    not empty, ["Split failed (status)"] for a response that is not a
    success. *)
Theorem generate_failure (net : FetchOutcome) (blob : jsstring + Blob)
    (w : World) :
  canGenerate (rows (app w)) = true -> generate_fails net blob ->
  fst (generate net blob w) = inr None
  /\ (exists msg, error (app (snd (generate net blob w))) = Some msg
                  /\ msg <> [])
  /\ (forall res, net = Responded res -> res_ok res = false ->
        error (app (snd (generate net blob w)))
        = Some (lit "Split failed (" ++ Number_toString (res_status res)
                  ++ lit ")")).
Proof.
  intros H Hfail. run_generate. rewrite H.
  cbn [negb fst snd app sent rows error uploading loading outputName].
  destruct net as [m|res];
    cbn [fst snd app sent rows error uploading loading outputName message].
  - repeat split; try discriminate.
    eexists. split; [reflexivity|]. apply or_else_not_empty. discriminate.
  - destruct (res_ok res) eqn:Hok;
      cbn [negb fst snd app sent rows error uploading loading outputName
             message].
    + simpl in Hfail. destruct Hfail as [Hbad|[m ->]]; [congruence|].
      cbn [fst snd app sent rows error uploading loading outputName message].
      repeat split.
      * eexists. split; [reflexivity|]. apply or_else_not_empty. discriminate.
      * intros res' E Hno. injection E as <-. congruence.
    + repeat split.
      * eexists. split; [reflexivity | discriminate].
      * intros res' E _. injection E as <-. reflexivity.
Qed.

Lemma generate_failure_witness :
  canGenerate (rows (app sample_world)) = true
  /\ generate_fails (Responded {| res_status := 500; res_json := inl [] |})
       (inr [])
  /\ error (app (snd (generate
                        (Responded {| res_status := 500; res_json := inl [] |})
                        (inr []) sample_world)))
     = Some (lit "Split failed (500)").
Proof.
  assert (H : canGenerate (rows (app sample_world)) = true) by reflexivity.
  assert (Hf : generate_fails
                 (Responded {| res_status := 500; res_json := inl [] |})
                 (inr [])) by (left; reflexivity).
  split; [exact H|]. split; [exact Hf|].
  exact (proj2 (proj2 (generate_failure
           (Responded {| res_status := 500; res_json := inl [] |}) (inr [])
           sample_world H Hf)) _ eq_refl eq_refl).
Defined.

(** X25: [generate] never sends anything but a well-formed request: either
    it sends nothing, or it sends one split request, for a collection that is
    not empty and whose selections are all valid for their page counts, under
    a file name that is not empty; and it starts a download only after a
    successful response, under a file name that is not empty. *)
Theorem generate_sends_valid_only (net : FetchOutcome)
    (blob : jsstring + Blob) (w : World) :
  (sent (snd (generate net blob w)) = sent w
   \/ (sent (snd (generate net blob w)) = sent w ++ [split_request (app w)]
       /\ rows (app w) <> [] /\ Forall row_valid (rows (app w))
       /\ or_else (outputName (app w)) (lit "merged.pdf") <> []))
  /\ (forall d, fst (generate net blob w) = inr (Some d) ->
        download d <> []
        /\ exists res, net = Responded res /\ res_ok res = true).
Proof.
  destruct (canGenerate (rows (app w))) eqn:H.
  - pose proof (proj1 (canGenerate_forall _) H) as [Hne Hall].
    run_generate. unfold split_request. rewrite H.
    cbn [negb fst snd app sent rows error uploading loading outputName].
    assert (Hname : or_else (outputName (app w)) (lit "merged.pdf") <> [])
      by (apply or_else_not_empty; discriminate).
    destruct net as [m|res];
      cbn [fst snd app sent rows error uploading loading outputName].
    + split; [right; repeat split; assumption|]. intros d E; discriminate E.
    + destruct (res_ok res) eqn:Hok;
        cbn [negb fst snd app sent rows error uploading loading outputName].
      * destruct blob as [m|b];
          cbn [fst snd app sent rows error uploading loading outputName].
        -- split; [right; repeat split; assumption|].
           intros d E; discriminate E.
        -- split; [right; repeat split; assumption|].
           intros d E. injection E as <-. cbn [download].
           split; [exact Hname|]. exists res. split; [reflexivity | exact Hok].
      * split; [right; repeat split; assumption|].
        intros d E; discriminate E.
  - run_generate. rewrite H. cbn [negb fst snd].
    split; [left; reflexivity|]. intros d E; discriminate E.
Qed.

Lemma generate_sends_valid_only_witness :
  fst (generate (Responded {| res_status := 200; res_json := inl [] |})
         (inr []) sample_world)
  = inr (Some {| download_blob := []; download := lit "merged.pdf" |})
  /\ download {| download_blob := []; download := lit "merged.pdf" |} <> [].
Proof.
  assert (H : fst (generate
                     (Responded {| res_status := 200; res_json := inl [] |})
                     (inr []) sample_world)
              = inr (Some {| download_blob := [];
                             download := lit "merged.pdf" |}))
    by reflexivity.
  split; [exact H|].
  exact (proj1 (proj2 (generate_sends_valid_only
                         (Responded {| res_status := 200;
                                       res_json := inl [] |})
                         (inr []) sample_world) _ H)).
Defined.

(** ** Number formatting *)

Lemma all_digits_zeros_app (k : nat) (d : jsstring) :
  all_digits d -> all_digits (repeat 48%N k ++ d).
Proof.
  intros H. apply Forall_app. split; [apply all_digits_zeros | exact H].
Qed.

Lemma zeros_app_not_nil (k : nat) (d : jsstring) :
  d <> [] -> repeat 48%N k ++ d <> [].
Proof. intros H. destruct k; [exact H | discriminate]. Qed.

Lemma with_zeros_match (t : zero_padded) :
  numerals_ok t ->
  re_match (with_zeros t)
  = Some (repeat 48%N (zeros_first t) ++ first t,
          match range_end t with
          | Some (k, d) => Some (repeat 48%N k ++ d)
          | None => None
          end)
  /\ re_match (without_zeros t)
     = Some (first t,
             match range_end t with
             | Some (_, d) => Some d
             | None => None
             end).
Proof.
  destruct t as [k d [[k2 d2]|]]; unfold numerals_ok, with_zeros,
    without_zeros; cbn [zeros_first first range_end].
  - intros (Hd & Hn & Hd2 & Hn2). split; apply re_match_complete.
    + apply term_range;
        auto using all_digits_zeros_app, zeros_app_not_nil.
    + apply term_range; assumption.
  - intros (Hd & Hn & _). rewrite !app_nil_r. split; apply re_match_complete.
    + apply term_page; auto using all_digits_zeros_app, zeros_app_not_nil.
    + apply term_page; assumption.
Qed.

Lemma check_parts_zeros (ts : list zero_padded) (max : Z) :
  Forall numerals_ok ts ->
  check_parts (map with_zeros ts) max = check_parts (map without_zeros ts) max.
Proof.
  induction 1 as [|t ts Ht _ IH]; [reflexivity|].
  cbn [map check_parts].
  destruct (with_zeros_match t Ht) as [-> ->].
  rewrite parseInt10_leading_zeros.
  destruct (range_end t) as [[k2 d2]|].
  - rewrite parseInt10_leading_zeros, IH. reflexivity.
  - rewrite IH. reflexivity.
Qed.

Lemma rendered_plain (t : zero_padded) :
  numerals_ok t ->
  (Forall (fun c => isDigit c = true \/ c = hyphen) (with_zeros t)
   /\ with_zeros t <> [])
  /\ (Forall (fun c => isDigit c = true \/ c = hyphen) (without_zeros t)
      /\ without_zeros t <> []).
Proof.
  intros Ht. destruct (with_zeros_match t Ht) as [H1 H2].
  apply re_match_sound in H1, H2. split; split.
  - exact (matches_term_chars _ _ _ H1).
  - intros E. rewrite E in H1. inversion H1 as [d Hn _ | a b Hn _ _ _ Ea].
    + subst. contradiction.
    + destruct a; discriminate.
  - exact (matches_term_chars _ _ _ H2).
  - intros E. rewrite E in H2. inversion H2 as [d Hn _ | a b Hn _ _ _ Ea].
    + subst. contradiction.
    + destruct a; discriminate.
Qed.

(** An expression of terms without blanks: the loop checks the terms. *)
Lemma joined_plain_terms (L : list jsstring) (max : Z) :
  L <> [] ->
  Forall (fun t => Forall (fun c => isDigit c = true \/ c = hyphen) t
                   /\ t <> []) L ->
  isValidSplit (join_comma L) max = check_parts L max.
Proof.
  intros Hne HL. rewrite Forall_forall in HL.
  assert (Hsplit : String_split comma (join_comma L) = L).
  { apply String_split_join; [exact Hne|]. intros t Ht.
    exact (proj2 (digits_hyphen_plain t (proj1 (HL t Ht)))). }
  assert (Htrim : map trim L = L).
  { rewrite <- (map_id L) at 2. apply map_ext_in. intros t Ht.
    apply trim_id. exact (proj1 (digits_hyphen_plain t (proj1 (HL t Ht)))). }
  assert (Hfilter : filter truthy L = L).
  { apply filter_keep_all. intros t Ht. apply truthy_true.
    exact (proj2 (HL t Ht)). }
  rewrite isValidSplit_has_term.
  - unfold split_parts. rewrite Hsplit, Htrim, Hfilter. reflexivity.
  - destruct L as [|t L]; [contradiction|].
    exists t. split; [rewrite Hsplit; left; reflexivity|].
    rewrite (trim_id t
               (proj1 (digits_hyphen_plain t
                         (proj1 (HL t (or_introl eq_refl)))))).
    exact (proj2 (HL t (or_introl eq_refl))).
Qed.

(** Zeros in front of the numbers of an expression, in bare numbers and at
    both ends of ranges, wherever the terms stand, do not change the
    verdict. *)
Lemma leading_zeros_in_terms (ts : list zero_padded) (max : Z) :
  Forall numerals_ok ts ->
  isValidSplit (join_comma (map with_zeros ts)) max
  = isValidSplit (join_comma (map without_zeros ts)) max.
Proof.
  intros H. destruct ts as [|t ts]; [reflexivity|].
  rewrite !joined_plain_terms; try discriminate.
  - apply check_parts_zeros; exact H.
  - apply Forall_forall. intros x Hx. apply in_map_iff in Hx.
    destruct Hx as (y & <- & Hy). rewrite Forall_forall in H.
    exact (proj2 (rendered_plain y (H y Hy))).
  - apply Forall_forall. intros x Hx. apply in_map_iff in Hx.
    destruct Hx as (y & <- & Hy). rewrite Forall_forall in H.
    exact (proj1 (rendered_plain y (H y Hy))).
Qed.

(** With zeros in front, the numeral of [a] is still read as [a]. *)
Lemma zeros_numeral_decimal (k k' : nat) (a b max : Z) :
  is_double a -> is_double b ->
  (0 <= a < ten21)%Z -> (0 <= b < ten21)%Z ->
  parseInt10 (repeat 48%N k ++ Number_toString a) = a
  /\ (isValidSplit (repeat 48%N k ++ Number_toString a) max = true
      <-> (1 <= a <= max)%Z)
  /\ (isValidSplit ((repeat 48%N k ++ Number_toString a)
                    ++ hyphen :: repeat 48%N k' ++ Number_toString b) max
      = true
      <-> (1 <= a /\ a <= b /\ b <= max)%Z).
Proof.
  intros Da' Db' Ha Hb.
  destruct (Number_toString_nonneg a Da' Ha) as (Da & Na & Va).
  destruct (Number_toString_nonneg b Db' Hb) as (Db & Nb & Vb).
  assert (Pa : parseInt10 (repeat 48%N k ++ Number_toString a) = a)
    by (rewrite parseInt10_leading_zeros; exact Va).
  assert (Pb : parseInt10 (repeat 48%N k' ++ Number_toString b) = b)
    by (rewrite parseInt10_leading_zeros; exact Vb).
  split; [exact Pa|]. split.
  - rewrite (page_valid _ max (all_digits_zeros_app k _ Da)
               (zeros_app_not_nil k _ Na)), Pa. reflexivity.
  - rewrite (range_valid _ _ max (all_digits_zeros_app k _ Da)
               (zeros_app_not_nil k _ Na) (all_digits_zeros_app k' _ Db)
               (zeros_app_not_nil k' _ Nb)), Pa, Pb. reflexivity.
Qed.

(** C10: the validator accepts numbers with leading zeros and reads them as
    the decimal numbers they denote: zeros in front of the numbers of an
    expression, in bare numbers and at both ends of ranges, in whatever term,
    do not change the verdict; the numeral of [a] with zeros in front is read
    as [a], is accepted exactly when [1 <= a <= max], and a range of two such
    numerals exactly when [1 <= a <= b <= max] (["03"] is page 3 and is
    accepted for 5 pages, and so are ["1-03"] and ["1,02"]).  It rejects
    every expression with a blank inside a trimmed term (["1 - 4"] is
    rejected), and blanks around the terms, next to the commas, do not change
    its verdict. *)
Theorem number_formatting_policy :
  (forall ts max, Forall numerals_ok ts ->
     isValidSplit (join_comma (map with_zeros ts)) max
     = isValidSplit (join_comma (map without_zeros ts)) max)
  /\ (forall k k' a b max,
        is_double a -> is_double b ->
        (0 <= a < ten21)%Z -> (0 <= b < ten21)%Z ->
        parseInt10 (repeat 48%N k ++ Number_toString a) = a
        /\ (isValidSplit (repeat 48%N k ++ Number_toString a) max = true
            <-> (1 <= a <= max)%Z)
        /\ (isValidSplit ((repeat 48%N k ++ Number_toString a)
                          ++ hyphen :: repeat 48%N k' ++ Number_toString b)
               max = true
            <-> (1 <= a /\ a <= b /\ b <= max)%Z))
  /\ (forall k d, parseInt10 (repeat 48%N k ++ d) = parseInt10 d)
  /\ (isValidSplit (lit "03") 5 = true /\ parseInt10 (lit "03") = 3%Z
      /\ isValidSplit (lit "1-03") 5 = true
      /\ isValidSplit (lit "1,02") 5 = true
      /\ isValidSplit (lit "06") 5 = false)
  /\ (forall e t c max,
        In t (String_split comma e) -> In c (trim t) ->
        isWhiteSpace c = true -> isValidSplit e max = false)
  /\ isValidSplit (lit "1 - 4") 5 = false
  /\ (forall xs max, Forall padding_ok xs ->
        isValidSplit (join_comma (map with_blanks xs)) max
        = isValidSplit (join_comma (map term xs)) max)
  /\ isValidSplit (lit " 1 , 2-4 ") 5 = true.
Proof.
  split; [exact leading_zeros_in_terms|].
  split; [exact zeros_numeral_decimal|].
  split; [exact parseInt10_leading_zeros|].
  split; [repeat split; reflexivity|].
  split; [exact blank_inside_term_rejected|].
  split; [reflexivity|].
  split; [exact blanks_around_terms | reflexivity].
Qed.

Lemma number_formatting_policy_witness :
  is_double 3 /\ is_double 4 /\ (0 <= 3 < ten21)%Z /\ (0 <= 4 < ten21)%Z
  /\ (isValidSplit ((repeat 48%N 1 ++ Number_toString 3)
                    ++ hyphen :: repeat 48%N 2 ++ Number_toString 4) 5 = true
      <-> (1 <= 3 /\ 3 <= 4 /\ 4 <= 5)%Z).
Proof.
  assert (D3 : is_double 3) by reflexivity.
  assert (D4 : is_double 4) by reflexivity.
  assert (H3 : (0 <= 3 < ten21)%Z) by (unfold ten21; lia).
  assert (H4 : (0 <= 4 < ten21)%Z) by (unfold ten21; lia).
  split; [exact D3|]. split; [exact D4|]. split; [exact H3|].
  split; [exact H4|].
  exact (proj2 (proj2 (proj1 (proj2 number_formatting_policy)
                         1%nat 2%nat 3%Z 4%Z 5%Z D3 D4 H3 H4))).
Defined.

(** ** Exact bounds below 2^53 *)

Lemma round53_large (n : Z) :
  (max_safe <= n)%Z -> (max_safe <= round53 n)%Z.
Proof.
  intros Hn. unfold round53.
  destruct (Z.ltb_spec n max_safe) as [H|_]; [lia|].
  assert (Hpos : (0 < n)%Z) by (unfold max_safe in Hn; lia).
  assert (HL : (53 <= Z.log2 n)%Z).
  { change 53%Z with (Z.log2 max_safe). apply Z.log2_le_mono. exact Hn. }
  destruct (Z.log2_spec n Hpos) as [Hlo _].
  set (e := (Z.log2 n - 52)%Z) in *.
  assert (He : (1 <= e)%Z) by (unfold e; lia).
  assert (Hq : (2 ^ 52 <= Z.shiftr n e)%Z).
  { rewrite Z.shiftr_div_pow2 by lia.
    apply Z.div_le_lower_bound; [apply Z.pow_pos_nonneg; lia|].
    rewrite Z.mul_comm, <- Z.pow_add_r by lia.
    replace (52 + e)%Z with (Z.log2 n) by (unfold e; lia). exact Hlo. }
  set (q := Z.shiftr n e) in *.
  assert (Hq' : (2 ^ 52
                 <= (if (Z.shiftl 1 (e - 1) <? n - Z.shiftl q e)
                        || ((n - Z.shiftl q e =? Z.shiftl 1 (e - 1))
                            && Z.odd q)
                     then q + 1 else q))%Z)
    by (destruct (_ || _)%bool; lia).
  rewrite Z.shiftl_mul_pow2 by lia.
  assert (H2 : (2 ^ 1 <= 2 ^ e)%Z) by (apply Z.pow_le_mono_r; lia).
  change max_safe with (2 ^ 52 * 2 ^ 1)%Z.
  apply Z.mul_le_mono_nonneg; try lia.
Qed.

(** The double of a natural number is the number itself below 2^53 and is
    at least 2^53 from there on. *)
Lemma to_double_cases (n : Z) :
  (0 <= n)%Z ->
  ((n < max_safe)%Z /\ to_double n = n)
  \/ ((max_safe <= n)%Z /\ (max_safe <= to_double n)%Z).
Proof.
  intros Hn. destruct (Z_lt_le_dec n max_safe) as [Hlt|Hge].
  - left. split; [exact Hlt | apply to_double_small; lia].
  - right. split; [exact Hge|].
    destruct n as [|p|p]; [unfold max_safe in Hge; lia | | lia].
    unfold to_double. apply Z.min_glb; [apply round53_large; exact Hge|].
    pose proof max_safe_lt_infinity. lia.
Qed.

Lemma decimal_value_nonneg (d : jsstring) :
  all_digits d -> (0 <= decimal_value d)%Z.
Proof.
  intros H. unfold decimal_value.
  assert (G : forall acc, (0 <= acc)%Z ->
            (0 <= fold_left (fun a c => 10 * a + digit_value c) d acc)%Z).
  { induction H as [|c d Hc _ IH]; intros acc Hacc; [exact Hacc|].
    cbn [fold_left]. apply IH.
    unfold isDigit in Hc. apply andb_true_iff in Hc. destruct Hc as [Hc _].
    apply N.leb_le in Hc. unfold digit_value. lia. }
  apply G. lia.
Qed.

(** For a bound below 2^53 the validator compares the exact values of the
    numerals: the rounding of [parseInt] does not show. *)
Lemma bounds_exact (d1 d2 : jsstring) (max : Z) :
  all_digits d1 -> all_digits d2 -> (max < max_safe)%Z ->
  ((1 <= parseInt10 d1 /\ parseInt10 d1 <= parseInt10 d2
    /\ parseInt10 d2 <= max)%Z
   <-> (1 <= decimal_value d1 /\ decimal_value d1 <= decimal_value d2
        /\ decimal_value d2 <= max)%Z).
Proof.
  intros H1 H2 Hmax. unfold parseInt10.
  destruct (to_double_cases _ (decimal_value_nonneg d1 H1)) as [[A ->]|[A A']];
    destruct (to_double_cases _ (decimal_value_nonneg d2 H2))
      as [[B ->]|[B B']]; lia.
Qed.

Lemma term_ok_exact (max : Z) (t : jsstring) :
  (max < max_safe)%Z ->
  (term_ok max t
   <-> exists d1 o, matches_term t d1 o
         /\ (1 <= decimal_value d1
             /\ decimal_value d1
                <= match o with
                   | Some d2 => decimal_value d2
                   | None => decimal_value d1
                   end
             /\ match o with
                | Some d2 => decimal_value d2
                | None => decimal_value d1
                end <= max)%Z).
Proof.
  intros Hmax. unfold term_ok, term_bounds.
  split; intros (d1 & o & Hm & Hb); exists d1, o; (split; [exact Hm|]);
    cbn [fst snd] in *;
    (destruct Hm as [d Hn Hd | a b Ha Da Hb' Db];
     [apply (bounds_exact d d max Hd Hd Hmax)
     |apply (bounds_exact a b max Da Db Hmax)]); exact Hb.
Qed.
